(** * astro-themes-next: the theme controller, embedded and verified

    The development follows the two source files of the package:

    - [AstroThemesNext.astro]: the component frontmatter (props and their
      defaults, an exported [getTheme]) and the inline module script that
      resolves, applies and persists the theme;
    - [utils.ts]: the exported helpers [getTheme] and [setTheme].

    JavaScript values that the script handles are strings, [null] and
    [undefined]; they are embedded as [option string], [None] standing for
    both [null] and [undefined] (the script never tells them apart).  The
    browser is an explicit state threaded through a small state-and-exception
    monad: the storage accesses throw where the browser refuses them, and so
    do the calls on the class list and the attributes of the root element
    where the browser rejects a token or a name; the script catches the
    former and not the latter. *)

From Stdlib Require Import Ascii String.
From stdpp Require Import base option list strings gmap fin_maps.

Local Open Scope string_scope.
Local Open Scope list_scope.

(** ** JavaScript truthiness on [string | null | undefined] *)

(** The truthy values of that type are exactly the non-empty strings.
    [nonempty v] is [Some s] when [v] is the truthy string [s]. *)
Definition nonempty (v : option string) : option string :=
  match v with
  | Some s => if decide (s = "") then None else Some s
  | None => None
  end.

Definition truthy (v : option string) : bool :=
  match nonempty v with Some _ => true | None => false end.

(** [a || b] *)
Definition js_or (a b : option string) : option string :=
  if truthy a then a else b.

(** [a || b] when [b] is a string: the result is a string. *)
Definition js_or_str (a : option string) (b : string) : string :=
  match nonempty a with Some s => s | None => b end.

(** ** Characters and strings *)

Fixpoint string_exists (p : ascii → bool) (s : string) : bool :=
  match s with
  | EmptyString => false
  | String c s' => p c || string_exists p s'
  end.

Fixpoint string_map (f : ascii → ascii) (s : string) : string :=
  match s with
  | EmptyString => EmptyString
  | String c s' => String (f c) (string_map f s')
  end.

(** ASCII white space: tab, line feed, form feed, carriage return, space. *)
Definition is_ascii_whitespace (c : ascii) : bool :=
  bool_decide (c ∈ ["009"; "010"; "012"; "013"; " "]%char).

Definition ascii_lower_char (c : ascii) : ascii :=
  let n := nat_of_ascii c in
  if Nat.leb 65 n && Nat.leb n 90 then ascii_of_nat (n + 32) else c.

(** ASCII lowercase, as the DOM applies it to attribute names. *)
Definition ascii_lowercase (s : string) : string := string_map ascii_lower_char s.

(** ** JavaScript values other than strings *)

(** What a property lookup on the [value] object can yield: nothing, a
    string (an own property), or a member inherited from [Object.prototype]
    (a function or an object), of which the script only uses the truthiness
    and the string conversion [text]. *)
Inductive JsValue :=
  | JsUndefined
  | JsString (s : string)
  | JsObject (text : string).

(** The string that a DOM call receives for a truthy value; [None] for a
    falsy one ([if (name)]). *)
Definition truthy_text (v : JsValue) : option string :=
  match v with
  | JsUndefined => None
  | JsString s => if decide (s = "") then None else Some s
  | JsObject text => Some text
  end.

(** [o[k]] on an object literal with string values: own properties first,
    then the members of [Object.prototype]. *)
Definition get_property (prototype o : gmap string string) (k : string) : JsValue :=
  match o !! k with
  | Some s => JsString s
  | None =>
      match prototype !! k with
      | Some text => JsObject text
      | None => JsUndefined
      end
  end.

(** ** The browser state *)

(** The root element of a document, as far as the script touches it: its
    class token list, its other attributes and the [color-scheme] property of
    its inline style ([None]: the property is not set). *)
Record Element := mkElement {
  classList : list string;
  attributes : gmap string string;
  style_colorScheme : option string
}.

(** A [<style>] element appended to the document head. *)
Record StyleNode := mkStyleNode {
  node_id : nat;
  node_nonce : option string;
  node_text : string
}.

Record Document := mkDocument {
  documentElement : Element;
  headChildren : list StyleNode
}.

(** [localStorage]: its entries, whether access to it is refused (privacy
    mode, sandboxed frame) and which writes exceed the quota. *)
Record Storage := mkStorage {
  items : gmap string string;
  denied : bool;
  over_quota : string → string → bool
}.

(** A pending [setTimeout] callback of the script: the delay and the style
    node that the callback removes from the head. *)
Record Timer := mkTimer {
  timer_delay : nat;
  timer_removes : nat
}.

(** What depends on the browser and its JavaScript engine and never changes
    while the page lives: the names that [setAttribute] accepts (the rule is
    that of the version of the DOM standard the browser implements) and the
    members of [Object.prototype] with their string conversions. *)
Record Engine := mkEngine {
  valid_attribute_name : string → bool;
  object_prototype : gmap string string
}.

(** [document] is the current document, an HTML document; [newDocument] is
    the incoming document carried by an [astro:before-swap] event. *)
Record Browser := mkBrowser {
  localStorage : Storage;
  prefersDark_matches : bool;
  document : Document;
  newDocument : Document;
  timeouts : list Timer;
  next_node_id : nat;
  engine : Engine
}.

(** The [doc] argument of [applyTheme] is a reference to a document. *)
Inductive DocRef := CurrentDocument | IncomingDocument.

Definition deref (r : DocRef) (w : Browser) : Document :=
  match r with
  | CurrentDocument => document w
  | IncomingDocument => newDocument w
  end.

Definition with_items (f : gmap string string → gmap string string) (w : Browser) : Browser :=
  mkBrowser
    (mkStorage (f (items (localStorage w))) (denied (localStorage w)) (over_quota (localStorage w)))
    (prefersDark_matches w) (document w) (newDocument w) (timeouts w) (next_node_id w)
    (engine w).

Definition with_root_of (f : Element → Element) (d : Document) : Document :=
  mkDocument (f (documentElement d)) (headChildren d).

Definition with_root (r : DocRef) (f : Element → Element) (w : Browser) : Browser :=
  match r with
  | CurrentDocument =>
      mkBrowser (localStorage w) (prefersDark_matches w)
        (with_root_of f (document w)) (newDocument w) (timeouts w) (next_node_id w)
        (engine w)
  | IncomingDocument =>
      mkBrowser (localStorage w) (prefersDark_matches w)
        (document w) (with_root_of f (newDocument w)) (timeouts w) (next_node_id w)
        (engine w)
  end.

(** ** Completions and the [Js] monad *)

Inductive Exn :=
  | SecurityError
  | QuotaExceededError
  | SyntaxError
  | InvalidCharacterError.

Inductive Completion (A : Type) :=
  | Normal (a : A)
  | Throw (e : Exn).
Arguments Normal {A} a.
Arguments Throw {A} e.

(** A computation runs on a browser state and ends normally or by throwing;
    the mutations made before a throw stay. *)
Definition Js (A : Type) : Type := Browser → Completion A * Browser.

#[global] Instance Js_ret : MRet Js := λ A a w, (Normal a, w).

#[global] Instance Js_bind : MBind Js := λ A B f m w,
  match m w with
  | (Normal a, w') => f a w'
  | (Throw e, w') => (Throw e, w')
  end.

(** [try { body } catch (e) { handler }] *)
Definition try_catch {A} (body : Js A) (handler : Exn → Js A) : Js A := λ w,
  match body w with
  | (Normal a, w') => (Normal a, w')
  | (Throw e, w') => handler e w'
  end.

Definition modify (f : Browser → Browser) : Js unit := λ w, (Normal tt, f w).

Definition exec {A} (m : Js A) (w : Browser) : Browser := (m w).2.

(** ** Browser interfaces used by the script *)

(** [localStorage.getItem(key)]: the stored string, or [null]. *)
Definition getItem (key : string) : Js (option string) := λ w,
  if denied (localStorage w) then (Throw SecurityError, w)
  else (Normal (items (localStorage w) !! key), w).

(** [localStorage.setItem(key, value)] *)
Definition setItem (key value : string) : Js unit := λ w,
  if denied (localStorage w) then (Throw SecurityError, w)
  else if over_quota (localStorage w) key value then (Throw QuotaExceededError, w)
  else (Normal tt, with_items <[key:=value]> w).

(** The validation that [DOMTokenList.add] and [DOMTokenList.remove] run
    on each token before they change anything: an empty token is a
    [SyntaxError], a token with ASCII white space an
    [InvalidCharacterError]. *)
Definition token_error (token : string) : option Exn :=
  if decide (token = "") then Some SyntaxError
  else if string_exists is_ascii_whitespace token then Some InvalidCharacterError
  else None.

Fixpoint tokens_error (tokens : list string) : option Exn :=
  match tokens with
  | [] => None
  | token :: tokens' =>
      match token_error token with
      | Some x => Some x
      | None => tokens_error tokens'
      end
  end.

(** The token list without the given tokens, and with one more token. *)
Definition without_tokens (tokens : list string) (l : list string) : list string :=
  filter (λ c, c ∉ tokens) l.

Definition with_token (token : string) (l : list string) : list string :=
  if decide (token ∈ l) then l else l ++ [token].

(** [DOMTokenList.remove(...tokens)] on the token list [l]: it throws when a
    token is rejected, else it takes every given token out. *)
Definition tokens_remove (tokens : list string) (l : list string) : Exn + list string :=
  match tokens_error tokens with
  | Some x => inl x
  | None => inr (without_tokens tokens l)
  end.

(** [DOMTokenList.add(token)] on the token list [l]: it throws when the
    token is rejected, else it appends the token unless it is there. *)
Definition tokens_add (token : string) (l : list string) : Exn + list string :=
  match token_error token with
  | Some x => inl x
  | None => inr (with_token token l)
  end.

Definition with_classList (l : list string) (e : Element) : Element :=
  mkElement l (attributes e) (style_colorScheme e).

Definition with_attributes (m : gmap string string) (e : Element) : Element :=
  mkElement (classList e) m (style_colorScheme e).

(** [setAttribute(name, value)] on the root element of an HTML document,
    for attributes other than [class] and [style]: it throws on a name that
    the browser rejects, else it sets the attribute of the lower-cased name. *)
Definition setAttribute (eng : Engine) (name value : string) (e : Element) : Exn + Element :=
  if valid_attribute_name eng name
  then inr (with_attributes (<[ascii_lowercase name:=value]> (attributes e)) e)
  else inl InvalidCharacterError.

(** [removeAttribute(name)]: it removes the attribute of the lower-cased
    name and never throws. *)
Definition removeAttribute (name : string) (e : Element) : Element :=
  with_attributes (delete (ascii_lowercase name) (attributes e)) e.

(** [d.style.colorScheme = v]; assigning [null] removes the property. *)
Definition set_colorScheme (v : option string) (e : Element) : Element :=
  mkElement (classList e) (attributes e) v.

(** A call on the root element of the document [d] that may throw. *)
Definition on_root (d : DocRef) (call : Engine → Element → Exn + Element) : Js unit := λ w,
  match call (engine w) (documentElement (deref d w)) with
  | inl x => (Throw x, w)
  | inr e' => (Normal tt, with_root d (λ _, e') w)
  end.

(** [d.classList.remove(...tokens)] and [d.classList.add(token)] *)
Definition classList_remove (d : DocRef) (tokens : list string) : Js unit :=
  on_root d (λ _ e, match tokens_remove tokens (classList e) with
                    | inl x => inl x
                    | inr l => inr (with_classList l e)
                    end).

Definition classList_add (d : DocRef) (token : string) : Js unit :=
  on_root d (λ _ e, match tokens_add token (classList e) with
                    | inl x => inl x
                    | inr l => inr (with_classList l e)
                    end).

(** [Array.prototype.includes] *)
Definition includes (l : list string) (x : string) : bool := bool_decide (x ∈ l).

(** ** Component frontmatter ([AstroThemesNext.astro], lines 1-60) *)

(** The [attribute] prop: one attribute name or an array of them. *)
Inductive AttributeProp :=
  | OneAttribute (a : string)
  | AttributeArray (l : list string).

(** The props as the page author passes them: every one is optional. *)
Record Props := mkProps {
  p_themes : option (list string);
  p_forcedTheme : option string;
  p_enableSystem : option bool;
  p_disableTransitionOnChange : option bool;
  p_enableColorScheme : option bool;
  p_storageKey : option string;
  p_defaultTheme : option string;
  p_attribute : option AttributeProp;
  p_value : option (gmap string string);
  p_nonce : option string
}.

(** The variables handed to the script by [define:vars]: the props after the
    defaults of the destructuring.  [value] is the theme-to-value object: the
    map holds its own properties, and a lookup on it also finds the members
    of [Object.prototype] (see [get_property]). *)
Record Config := mkConfig {
  forcedTheme : option string;
  disableTransitionOnChange : bool;
  enableSystem : bool;
  enableColorScheme : bool;
  storageKey : string;
  themes : list string;
  defaultTheme : string;
  attribute : AttributeProp;
  value : option (gmap string string);
  nonce : option string
}.

Definition defaultThemes : list string := ["light"; "dark"].

Definition define_vars (p : Props) : Config :=
  let enableSystem := default true (p_enableSystem p) in
  mkConfig
    (p_forcedTheme p)
    (default false (p_disableTransitionOnChange p))
    enableSystem
    (default true (p_enableColorScheme p))
    (default "theme" (p_storageKey p))
    (default defaultThemes (p_themes p))
    (default (if enableSystem then "system" else "light") (p_defaultTheme p))
    (default (OneAttribute "data-theme") (p_attribute p))
    (p_value p)
    (p_nonce p).

Module Frontmatter.

(** The exported [getTheme] of the frontmatter: it evaluates an expression
    on the root element and has no [return]. *)
Definition getTheme : Js (option string) := λ w,
  let _ := attributes (documentElement (document w)) !! "data-theme" in
  (Normal None, w).

End Frontmatter.

(** [target.dispatchEvent(event)] with one listener: the listener runs at
    once; an exception that it throws is reported by the browser and does not
    reach the caller of [dispatchEvent]. *)
Definition dispatchEvent (listener : Js unit) : Js unit :=
  try_catch listener (λ _, mret tt).

(** ** The inline script ([AstroThemesNext.astro], lines 63-207) *)

Module Script.

Definition colorSchemes : list string := ["light"; "dark"].

Definition transition_css : string :=
  "*,*::before,*::after{-webkit-transition:none!important;-moz-transition:none!important;-o-transition:none!important;-ms-transition:none!important;transition:none!important}".

(** [getTheme(key, fallback)]: the stored value when the read succeeds and
    the value is truthy, else [fallback]. *)
Definition getTheme (key : string) (fallback : string) : Js string :=
  theme ← try_catch
            (v ← getItem key; mret (js_or v None))
            (λ _, mret None);
  mret (js_or_str theme fallback).

(** [getSystemTheme()] reads the [prefers-color-scheme: dark] media query. *)
Definition getSystemTheme : Js string := λ w,
  let isDark := prefersDark_matches w in
  let systemTheme := if isDark then "dark" else "light" in
  (Normal systemTheme, w).

(** [saveToLS(storageKey, value)] *)
Definition saveToLS (storageKey value : string) : Js unit :=
  try_catch (setItem storageKey value) (λ _, mret tt).

(** The callback that [disableAnimation] schedules with [setTimeout]:
    [document.head.removeChild(css)]. *)
Definition removeChild (id : nat) (w : Browser) : Browser :=
  mkBrowser (localStorage w) (prefersDark_matches w)
    (mkDocument (documentElement (document w))
       (filter (λ n, node_id n ≠ id) (headChildren (document w))))
    (newDocument w) (timeouts w) (next_node_id w) (engine w).

(** The event loop running the pending [setTimeout] callbacks. *)
Definition run_timeouts (w : Browser) : Browser :=
  let w' := foldl (λ w t, removeChild (timer_removes t) w) w (timeouts w) in
  mkBrowser (localStorage w') (prefersDark_matches w') (document w') (newDocument w')
    [] (next_node_id w') (engine w').

(** [disableAnimation(nonce)] appends a style element to the head of the
    current document and returns the function that, after a forced restyle,
    schedules its removal one millisecond later. *)
Definition disableAnimation (nonce : option string) : Js (Js unit) := λ w,
  let css := mkStyleNode (next_node_id w) (nonempty nonce) transition_css in
  (Normal (modify (λ w', mkBrowser (localStorage w') (prefersDark_matches w')
                           (document w') (newDocument w')
                           (timeouts w' ++ [mkTimer 1 (node_id css)]) (next_node_id w')
                           (engine w'))),
   mkBrowser (localStorage w) (prefersDark_matches w)
     (mkDocument (documentElement (document w)) (headChildren (document w) ++ [css]))
     (newDocument w) (timeouts w) (S (next_node_id w)) (engine w)).

Section WithConfig.

Variable cfg : Config.

(** [getResolveTheme()] *)
Definition getResolveTheme : Js string :=
  theme ← getTheme (storageKey cfg) (defaultTheme cfg);
  if decide (theme = "system") then getSystemTheme else mret theme.

(** [attrs]: the class tokens that [applyTheme] removes. *)
Definition attrs : list string :=
  match value cfg with
  | None => themes cfg
  | Some v => (map_to_list v).*1
  end.

(** [handleAttribute(attr)], the closure of [applyTheme] over [d] and
    [name]. *)
Definition handleAttribute (d : DocRef) (name : JsValue) (attr : string) : Js unit :=
  if decide (attr = "class") then
    classList_remove d attrs;;
    match truthy_text name with
    | Some n => classList_add d n
    | None => mret tt
    end
  else if String.prefix "data-" attr then
    match truthy_text name with
    | Some n => on_root d (λ eng, setAttribute eng attr n)
    | None => modify (with_root d (removeAttribute attr))
    end
  else mret tt.

(** [Array.prototype.forEach] *)
Fixpoint forEach (f : string → Js unit) (l : list string) : Js unit :=
  match l with
  | [] => mret tt
  | x :: l' => f x;; forEach f l'
  end.

(** [applyTheme(theme, doc)] *)
Definition applyTheme (theme : option string) (doc : option DocRef) : Js unit :=
  match nonempty theme with
  | None => mret tt
  | Some t =>
      resolved ← (if decide (t = "system") then
                    if enableSystem cfg then getSystemTheme else mret t
                  else mret t);
      name ← (λ w, (Normal match value cfg with
                           | Some v => get_property (object_prototype (engine w)) v resolved
                           | None => JsString resolved
                           end, w));
      enable ← (if disableTransitionOnChange cfg
                then restore ← disableAnimation (nonce cfg); mret (Some restore)
                else mret None);
      let d := default CurrentDocument doc in
      match attribute cfg with
      | AttributeArray l => forEach (handleAttribute d name) l
      | OneAttribute a => handleAttribute d name a
      end;;
      (if enableColorScheme cfg then
         let fallback := if includes colorSchemes (defaultTheme cfg)
                         then Some (defaultTheme cfg) else None in
         let colorScheme := if includes colorSchemes resolved
                            then Some resolved else fallback in
         modify (with_root d (set_colorScheme colorScheme))
       else mret tt);;
      match enable with
      | Some restore => restore
      | None => mret tt
      end
  end.

(** [handleStorage(e)], on [e.key] and [e.newValue] *)
Definition handleStorage (key newValue : option string) : Js unit :=
  if decide (key ≠ Some (storageKey cfg)) then mret tt
  else applyTheme (Some (js_or_str newValue (defaultTheme cfg))) None.

(** [handleSetTheme(e)], on [e.detail] *)
Definition handleSetTheme (detail : option string) : Js unit :=
  match nonempty detail with
  | Some x =>
      saveToLS (storageKey cfg) x;;
      applyTheme (Some x) None
  | None =>
      newTheme ← getResolveTheme;
      saveToLS (storageKey cfg) newTheme;;
      applyTheme (Some newTheme) None
  end.

(** [refreshTheme()], run at the end of the script (the page load) and on
    every change of the media query *)
Definition refreshTheme : Js unit :=
  theme ← getResolveTheme; applyTheme (Some theme) None.

(** [handleBeforeSwap(e)], on [e.newDocument] *)
Definition handleBeforeSwap : Js unit :=
  theme ← getResolveTheme; applyTheme (Some theme) (Some IncomingDocument).

End WithConfig.

End Script.

(** ** [utils.ts] *)

Module Utils.

(** [getTheme(fallback)]: the body binds a constant and has no [return]. *)
Definition getTheme (fallback : option string) : Js (option string) :=
  v ← getItem "theme";
  let theme := js_or_str (js_or v fallback) "light" in
  mret None.

(** [setTheme(newTheme)] dispatches a [set-theme] event on the document,
    whose listener is [handleSetTheme]; the event's [detail] is [newTheme]. *)
Definition setTheme (cfg : Config) (newTheme : option string) : Js unit :=
  dispatchEvent (Script.handleSetTheme cfg newTheme).

End Utils.

(** ** Effect summaries

    Pure functions that say what the handlers do to the parts of the browser
    state and whether they throw; each is proved equal to the monadic code
    below. *)

(** What a guarded read of [key] yields: the stored entry, or nothing when
    access to the storage throws. *)
Definition persisted (key : string) (w : Browser) : option string :=
  if denied (localStorage w) then None else items (localStorage w) !! key.

(** Whether [setItem key v] throws in [w]. *)
Definition write_fails (key v : string) (w : Browser) : bool :=
  denied (localStorage w) || over_quota (localStorage w) key v.

Definition systemTheme (w : Browser) : string :=
  if prefersDark_matches w then "dark" else "light".

(** The value [getResolveTheme] returns, as a function of the state. *)
Definition resolved_theme (cfg : Config) (w : Browser) : string :=
  let theme := js_or_str (persisted (storageKey cfg) w) (defaultTheme cfg) in
  if decide (theme = "system") then systemTheme w else theme.

(** The theme that [applyTheme] works with after its [system] test. *)
Definition resolved_for (cfg : Config) (w : Browser) (t : string) : string :=
  if decide (t = "system") then
    if enableSystem cfg then systemTheme w else t
  else t.

(** [name]: [value ? value[resolved] : resolved]. *)
Definition name_for (cfg : Config) (eng : Engine) (resolved : string) : JsValue :=
  match value cfg with
  | Some v => get_property (object_prototype eng) v resolved
  | None => JsString resolved
  end.

(** The completion of a call that throws [x], or ends normally. *)
Definition completion_of (error : option Exn) : Completion unit :=
  match error with
  | Some x => Throw x
  | None => Normal tt
  end.

(** What the [class] branch of [handleAttribute] does to the token list, up
    to the call that throws, if one does. *)
Definition class_update (cfg : Config) (name : JsValue) (l : list string) : list string :=
  match tokens_error (Script.attrs cfg) with
  | Some _ => l
  | None =>
      let l' := without_tokens (Script.attrs cfg) l in
      match truthy_text name with
      | Some n =>
          match token_error n with
          | Some _ => l'
          | None => with_token n l'
          end
      | None => l'
      end
  end.

(** The exception that [handleAttribute(attr)] throws, if any: it depends
    on the configuration, the name and the browser, not on the element. *)
Definition attr_error (eng : Engine) (cfg : Config) (name : JsValue) (attr : string)
    : option Exn :=
  if decide (attr = "class") then
    match tokens_error (Script.attrs cfg) with
    | Some x => Some x
    | None =>
        match truthy_text name with
        | Some n => token_error n
        | None => None
        end
    end
  else if String.prefix "data-" attr then
    match truthy_text name with
    | Some n => if valid_attribute_name eng attr then None else Some InvalidCharacterError
    | None => None
    end
  else None.

(** What [handleAttribute(attr)] has done to the element when it ends,
    normally or not. *)
Definition attr_write (eng : Engine) (cfg : Config) (name : JsValue) (attr : string)
    (e : Element) : Element :=
  if decide (attr = "class") then
    with_classList (class_update cfg name (classList e)) e
  else if String.prefix "data-" attr then
    match truthy_text name with
    | Some n =>
        if valid_attribute_name eng attr
        then with_attributes (<[ascii_lowercase attr:=n]> (attributes e)) e
        else e
    | None => removeAttribute attr e
    end
  else e.

(** The elements that [forEach] reaches: those up to the first one on
    which the callback throws, that one included. *)
Fixpoint executed (error : string → option Exn) (l : list string) : list string :=
  match l with
  | [] => []
  | a :: l' =>
      match error a with
      | Some _ => [a]
      | None => a :: executed error l'
      end
  end.

Fixpoint first_error (error : string → option Exn) (l : list string) : option Exn :=
  match l with
  | [] => None
  | a :: l' =>
      match error a with
      | Some x => Some x
      | None => first_error error l'
      end
  end.

(** The attribute targets as a list: [attribute] itself, or its elements
    when it is an array. *)
Definition targets (cfg : Config) : list string :=
  match attribute cfg with
  | OneAttribute a => [a]
  | AttributeArray l => l
  end.

(** The exception that [applyTheme] throws on the resolved theme, if any. *)
Definition apply_error (eng : Engine) (cfg : Config) (resolved : string) : option Exn :=
  first_error (attr_error eng cfg (name_for cfg eng resolved)) (targets cfg).

(** One step of [attribute.forEach(handleAttribute)]. *)
Definition attribute_step (eng : Engine) (cfg : Config) (name : JsValue) (e : Element)
    (a : string) : Element :=
  attr_write eng cfg name a e.

Definition attributes_root (eng : Engine) (cfg : Config) (name : JsValue) (e : Element)
    : Element :=
  foldl (attribute_step eng cfg name) e (executed (attr_error eng cfg name) (targets cfg)).

Definition colorScheme_for (cfg : Config) (resolved : string) : option string :=
  if includes Script.colorSchemes resolved then Some resolved
  else if includes Script.colorSchemes (defaultTheme cfg) then Some (defaultTheme cfg)
  else None.

(** The root element when [applyTheme] ends on the resolved theme: the
    color scheme is written only if no attribute call has thrown. *)
Definition applyTheme_root (eng : Engine) (cfg : Config) (resolved : string) (e : Element)
    : Element :=
  let e' := attributes_root eng cfg (name_for cfg eng resolved) e in
  match apply_error eng cfg resolved with
  | Some _ => e'
  | None =>
      if enableColorScheme cfg then set_colorScheme (colorScheme_for cfg resolved) e' else e'
  end.

(** The attributes that [handleAttribute] may write: the [data-] ones. *)
Definition is_data_attribute (a : string) : Prop := String.prefix "data-" a = true.

(** The target [a] is a [data-] attribute whose write (of the name, or its
    removal when the name is falsy) lands on the attribute [k]. *)
Definition writes_to (eng : Engine) (name : JsValue) (k : string) (a : string) : Prop :=
  is_data_attribute a ∧ ascii_lowercase a = k ∧
  (truthy_text name = None ∨ valid_attribute_name eng a = true).

#[global] Instance writes_to_dec eng name k a : Decision (writes_to eng name k a).
Proof. unfold writes_to, is_data_attribute. apply _. Defined.

(** The theme that [handleSetTheme] saves and applies for the detail [x]. *)
Definition effective_theme (cfg : Config) (x : option string) (w : Browser) : string :=
  match nonempty x with
  | Some s => s
  | None => resolved_theme cfg w
  end.

(** The state after [saveToLS key v]. *)
Definition saved (key v : string) (w : Browser) : Browser :=
  if write_fails key v w then w else with_items <[key:=v]> w.

(** The state part of [disableAnimation(nonce)]: a new style element is the
    last child of the head of the current document. *)
Definition style_added (nonce : option string) (w : Browser) : Browser :=
  mkBrowser (localStorage w) (prefersDark_matches w)
    (mkDocument (documentElement (document w))
       (headChildren (document w)
          ++ [mkStyleNode (next_node_id w) (nonempty nonce) Script.transition_css]))
    (newDocument w) (timeouts w) (S (next_node_id w)) (engine w).

(** The state part of the function that [disableAnimation] returns: the
    removal of the style element [id] is scheduled. *)
Definition timer_added (id : nat) (w : Browser) : Browser :=
  mkBrowser (localStorage w) (prefersDark_matches w) (document w) (newDocument w)
    (timeouts w ++ [mkTimer 1 id]) (next_node_id w) (engine w).

(** The state when [applyTheme] ends on the truthy theme [t]: the timer is
    scheduled only if no attribute call has thrown. *)
Definition applyTheme_state (cfg : Config) (t : string) (doc : option DocRef) (w : Browser)
    : Browser :=
  let resolved := resolved_for cfg w t in
  let rewrite_root :=
    with_root (default CurrentDocument doc) (applyTheme_root (engine w) cfg resolved) in
  if disableTransitionOnChange cfg
  then
    match apply_error (engine w) cfg resolved with
    | Some _ => rewrite_root (style_added (nonce cfg) w)
    | None => timer_added (next_node_id w) (rewrite_root (style_added (nonce cfg) w))
    end
  else rewrite_root w.

(** The root element that [applyTheme(theme, doc)] works on:
    [doc ? doc.documentElement : document.documentElement]. *)
Definition root_of (doc : option DocRef) (w : Browser) : Element :=
  documentElement (deref (default CurrentDocument doc) w).

(** The media query in another state. *)
Definition with_prefersDark (b : bool) (w : Browser) : Browser :=
  mkBrowser (localStorage w) b (document w) (newDocument w) (timeouts w) (next_node_id w)
    (engine w).

(** The state once the incoming document has become the current one. *)
Definition navigated (w : Browser) : Browser :=
  mkBrowser (localStorage w) (prefersDark_matches w) (newDocument w) (newDocument w)
    (timeouts w) (next_node_id w) (engine w).

(** ** Sample pages *)

(** The attribute names that the current DOM standard accepts: not empty,
    without ASCII white space, NUL, [/], [=] or [>]. *)
Definition dom_valid_attribute_name (s : string) : bool :=
  negb (bool_decide (s = "")) &&
  negb (string_exists
          (λ c, is_ascii_whitespace c || bool_decide (c ∈ ["000"; "/"; "="; ">"]%char)) s).

(** The members of [Object.prototype] and their string conversions. *)
Definition standard_object_prototype : gmap string string :=
  list_to_map
    [("constructor", "function Object() { [native code] }");
     ("hasOwnProperty", "function hasOwnProperty() { [native code] }");
     ("isPrototypeOf", "function isPrototypeOf() { [native code] }");
     ("propertyIsEnumerable", "function propertyIsEnumerable() { [native code] }");
     ("toLocaleString", "function toLocaleString() { [native code] }");
     ("toString", "function toString() { [native code] }");
     ("valueOf", "function valueOf() { [native code] }");
     ("__defineGetter__", "function __defineGetter__() { [native code] }");
     ("__defineSetter__", "function __defineSetter__() { [native code] }");
     ("__lookupGetter__", "function __lookupGetter__() { [native code] }");
     ("__lookupSetter__", "function __lookupSetter__() { [native code] }");
     ("__proto__", "[object Object]")].

Definition standard_engine : Engine :=
  mkEngine dom_valid_attribute_name standard_object_prototype.

Definition no_props : Props :=
  mkProps None None None None None None None None None None.

Definition blank_root : Element := mkElement [] ∅ None.

Definition blank_document : Document := mkDocument blank_root [].

(** A browser with working storage that holds the entries [m], the media
    query in state [dark] and two blank documents. *)
Definition browser (m : gmap string string) (dark : bool) : Browser :=
  mkBrowser (mkStorage m false (λ _ _, false)) dark blank_document blank_document [] 0
    standard_engine.

(** The same with a storage that refuses every access. *)
Definition private_browser (m : gmap string string) (dark : bool) : Browser :=
  mkBrowser (mkStorage m true (λ _ _, false)) dark blank_document blank_document [] 0
    standard_engine.

(** The same with a storage that is full: reads work, writes throw. *)
Definition full_browser (m : gmap string string) (dark : bool) : Browser :=
  mkBrowser (mkStorage m false (λ _ _, true)) dark blank_document blank_document [] 0
    standard_engine.

(** The root element of the current document. *)
Definition root (w : Browser) : Element := documentElement (document w).

Definition with_forcedTheme (f : option string) (cfg : Config) : Config :=
  mkConfig f (disableTransitionOnChange cfg) (enableSystem cfg) (enableColorScheme cfg)
    (storageKey cfg) (themes cfg) (defaultTheme cfg) (attribute cfg) (value cfg) (nonce cfg).

(** Page with [forcedTheme="dark"] and [defaultTheme="light"]. *)
Definition forced_dark_props : Props :=
  mkProps None (Some "dark") None None None None (Some "light") None None None.

(** Page with [enableSystem={false}]. *)
Definition no_system_props : Props :=
  mkProps None None (Some false) None None None None None None None.

(** Page with [attribute="class"] and a value map. *)
Definition class_map_props : Props :=
  mkProps None None None None None None None (Some (OneAttribute "class"))
    (Some {[ "light" := "theme-light"; "dark" := "theme-dark" ]}) None.


(** * Properties *)

Import Script.

(** ** The monad *)

Lemma bind_Normal {A B} (m : Js A) (f : A → Js B) w a w' :
  m w = (Normal a, w') → (m ≫= f) w = f a w'.
Proof. intros H. unfold mbind, Js_bind. by rewrite H. Qed.

Lemma bind_Throw {A B} (m : Js A) (f : A → Js B) w e w' :
  m w = (Throw e, w') → (m ≫= f) w = (Throw e, w').
Proof. intros H. unfold mbind, Js_bind. by rewrite H. Qed.

Lemma with_root_id d w : with_root d (λ e, e) w = w.
Proof. by destruct d, w as [? ? [[] ?] [[] ?] ? ? ?]. Qed.

Lemma with_root_compose d f g w :
  with_root d f (with_root d g w) = with_root d (λ e, f (g e)) w.
Proof. by destruct d. Qed.

Lemma with_root_ext d f g w :
  (∀ e, f e = g e) → with_root d f w = with_root d g w.
Proof. intros H. destruct d; simpl; unfold with_root_of; by rewrite H. Qed.

Lemma with_root_engine d f w : engine (with_root d f w) = engine w.
Proof. by destruct d. Qed.

Lemma exec_dispatchEvent (m : Js unit) w : exec (dispatchEvent m) w = exec m w.
Proof. unfold exec, dispatchEvent, try_catch. by destruct (m w) as [[[]|x] w']. Qed.

(** ** Truthiness *)

Lemma nonempty_Some v s : nonempty v = Some s ↔ v = Some s ∧ s ≠ "".
Proof.
  unfold nonempty. destruct v as [s'|]; [|by split; [|intros []]].
  case_decide; split; intros; simplify_eq; try done; by destruct_and?; simplify_eq.
Qed.

Lemma nonempty_None v : nonempty v = None ↔ v = None ∨ v = Some "".
Proof.
  unfold nonempty. destruct v as [s'|]; [|by split; [left|]].
  case_decide as Hs; [subst s'; by split; [right|]|].
  split; [done|]. intros [?|?]; by simplify_eq.
Qed.

Lemma nonempty_Some_id t : t ≠ "" → nonempty (Some t) = Some t.
Proof. intros Ht. by apply nonempty_Some. Qed.

Lemma js_or_str_undefined v b : js_or_str (js_or v None) b = js_or_str v b.
Proof.
  unfold js_or, truthy, js_or_str.
  destruct (nonempty v) eqn:E; [by rewrite E|done].
Qed.

Lemma js_or_str_cases v b :
  (∃ s, v = Some s ∧ s ≠ "" ∧ js_or_str v b = s) ∨
  ((v = None ∨ v = Some "") ∧ js_or_str v b = b).
Proof.
  unfold js_or_str. destruct (nonempty v) as [s|] eqn:E.
  - left. exists s. by apply nonempty_Some in E as [-> ?].
  - right. by apply nonempty_None in E.
Qed.

(** ** Storage reads and writes *)

Lemma getTheme_run key fallback w :
  getTheme key fallback w = (Normal (js_or_str (persisted key w) fallback), w).
Proof.
  unfold getTheme, persisted, try_catch, getItem, mbind, Js_bind, mret, Js_ret.
  destruct (denied (localStorage w)); [done|].
  by rewrite js_or_str_undefined.
Qed.

Lemma getResolveTheme_run cfg w :
  getResolveTheme cfg w = (Normal (resolved_theme cfg w), w).
Proof.
  unfold getResolveTheme, resolved_theme.
  erewrite bind_Normal by apply getTheme_run.
  by case_decide.
Qed.

Lemma saveToLS_run key v w :
  saveToLS key v w =
    (Normal tt, if write_fails key v w then w else with_items <[key:=v]> w).
Proof.
  unfold saveToLS, try_catch, setItem, write_fails.
  destruct (denied (localStorage w)); [done|].
  by destruct (over_quota (localStorage w) key v).
Qed.

(** ** [applyTheme] *)

Lemma handleAttribute_run cfg d name attr w :
  handleAttribute cfg d name attr w =
    (completion_of (attr_error (engine w) cfg name attr),
     with_root d (attr_write (engine w) cfg name attr) w).
Proof.
  unfold handleAttribute, attr_error, attr_write, class_update.
  destruct w as [ls p [[cl ats st] hd] [[cl' ats' st'] hd'] ts n eng].
  case_decide.
  - unfold mbind, Js_bind, classList_remove, classList_add, on_root, tokens_remove,
      tokens_add, mret, Js_ret.
    destruct d; simpl;
      (destruct (tokens_error (attrs cfg)); [done|]);
      (destruct (truthy_text name) as [t|]; [|done]);
      simpl; by destruct (token_error t).
  - destruct (String.prefix "data-" attr); [|by destruct d].
    destruct (truthy_text name) as [t|]; [|by destruct d].
    unfold on_root, setAttribute. destruct d; simpl;
      by destruct (valid_attribute_name eng attr).
Qed.

Lemma forEach_handleAttribute_run cfg d name l w :
  forEach (handleAttribute cfg d name) l w =
    (completion_of (first_error (attr_error (engine w) cfg name) l),
     with_root d (λ e, foldl (attribute_step (engine w) cfg name) e
                         (executed (attr_error (engine w) cfg name) l)) w).
Proof.
  revert w. induction l as [|a l IH]; intros w; simpl.
  - unfold mret, Js_ret. by rewrite with_root_id.
  - unfold mbind, Js_bind. rewrite handleAttribute_run.
    destruct (attr_error (engine w) cfg name a) eqn:E; simpl; [done|].
    by rewrite IH, with_root_engine, with_root_compose.
Qed.

Lemma attributes_run cfg d name w :
  match attribute cfg with
  | AttributeArray l => forEach (handleAttribute cfg d name) l
  | OneAttribute a => handleAttribute cfg d name a
  end w =
    (completion_of (first_error (attr_error (engine w) cfg name) (targets cfg)),
     with_root d (attributes_root (engine w) cfg name) w).
Proof.
  unfold attributes_root, targets. destruct (attribute cfg) as [a|l].
  - rewrite handleAttribute_run. simpl.
    by destruct (attr_error (engine w) cfg name a).
  - apply forEach_handleAttribute_run.
Qed.

(** [applyTheme] on a falsy theme returns at once. *)
Lemma applyTheme_falsy cfg theme doc w :
  nonempty theme = None → applyTheme cfg theme doc w = (Normal tt, w).
Proof. intros H. unfold applyTheme. by rewrite H. Qed.

(** [applyTheme] on a truthy theme: its completion and the state it ends
    in. *)
Lemma applyTheme_state_run cfg t doc w :
  t ≠ "" →
  applyTheme cfg (Some t) doc w =
    (completion_of (apply_error (engine w) cfg (resolved_for cfg w t)),
     applyTheme_state cfg t doc w).
Proof.
  intros Ht. unfold applyTheme, applyTheme_state. rewrite nonempty_Some_id by done.
  set (d := default CurrentDocument doc).
  set (r := resolved_for cfg w t).
  assert ((if decide (t = "system")
           then if enableSystem cfg then getSystemTheme else mret t
           else mret t) w = (Normal r, w)) as Hres.
  { unfold r, resolved_for. case_decide; [|done]. by destruct (enableSystem cfg). }
  erewrite bind_Normal by apply Hres. clear Hres.
  erewrite bind_Normal by reflexivity. fold (name_for cfg (engine w) r).
  unfold applyTheme_root, apply_error.
  unfold mbind, Js_bind, mret, Js_ret, disableAnimation, modify.
  destruct (disableTransitionOnChange cfg); rewrite attributes_run; simpl;
    destruct (first_error (attr_error (engine w) cfg (name_for cfg (engine w) r))
                (targets cfg)); simpl; try done;
    destruct (enableColorScheme cfg); by rewrite ?with_root_compose.
Qed.

Lemma applyTheme_state_root cfg t doc w :
  root_of doc (applyTheme_state cfg t doc w) =
    applyTheme_root (engine w) cfg (resolved_for cfg w t) (root_of doc w).
Proof.
  unfold applyTheme_state, root_of.
  by destruct (disableTransitionOnChange cfg),
       (apply_error (engine w) cfg (resolved_for cfg w t)),
       (default CurrentDocument doc).
Qed.

Lemma applyTheme_state_localStorage cfg t doc w :
  localStorage (applyTheme_state cfg t doc w) = localStorage w.
Proof.
  unfold applyTheme_state.
  by destruct (disableTransitionOnChange cfg),
       (apply_error (engine w) cfg (resolved_for cfg w t)),
       (default CurrentDocument doc).
Qed.

Lemma applyTheme_state_prefersDark cfg t doc w :
  prefersDark_matches (applyTheme_state cfg t doc w) = prefersDark_matches w.
Proof.
  unfold applyTheme_state.
  by destruct (disableTransitionOnChange cfg),
       (apply_error (engine w) cfg (resolved_for cfg w t)),
       (default CurrentDocument doc).
Qed.

Lemma applyTheme_state_engine cfg t doc w :
  engine (applyTheme_state cfg t doc w) = engine w.
Proof.
  unfold applyTheme_state.
  by destruct (disableTransitionOnChange cfg),
       (apply_error (engine w) cfg (resolved_for cfg w t)),
       (default CurrentDocument doc).
Qed.

Lemma resolved_for_ext cfg w1 w2 t :
  prefersDark_matches w1 = prefersDark_matches w2 →
  resolved_for cfg w1 t = resolved_for cfg w2 t.
Proof. intros H. unfold resolved_for, systemTheme. by rewrite H. Qed.

(** The state in which [applyTheme] ends, for every theme and whether or
    not it throws: the storage, the media query and the engine are as before,
    and the root element it works on is rewritten by [applyTheme_root]. *)
Lemma applyTheme_exec cfg theme doc w :
  let w' := exec (applyTheme cfg theme doc) w in
  localStorage w' = localStorage w ∧
  prefersDark_matches w' = prefersDark_matches w ∧
  engine w' = engine w ∧
  root_of doc w' =
    match nonempty theme with
    | Some t => applyTheme_root (engine w) cfg (resolved_for cfg w t) (root_of doc w)
    | None => root_of doc w
    end.
Proof.
  unfold exec. destruct (nonempty theme) as [t|] eqn:E.
  - apply nonempty_Some in E as [-> Ht]. rewrite applyTheme_state_run by done. simpl.
    by rewrite applyTheme_state_localStorage, applyTheme_state_prefersDark,
         applyTheme_state_engine, applyTheme_state_root.
  - by rewrite applyTheme_falsy.
Qed.

Lemma applyTheme_exec_root cfg theme doc w :
  root_of doc (exec (applyTheme cfg theme doc) w) =
    match nonempty theme with
    | Some t => applyTheme_root (engine w) cfg (resolved_for cfg w t) (root_of doc w)
    | None => root_of doc w
    end.
Proof. apply applyTheme_exec. Qed.

(** ** The root element after [applyTheme] *)

Lemma Element_eq (e1 e2 : Element) :
  classList e1 = classList e2 →
  attributes e1 = attributes e2 →
  style_colorScheme e1 = style_colorScheme e2 →
  e1 = e2.
Proof. destruct e1, e2; simpl; by intros -> -> ->. Qed.

Lemma without_tokens_idemp tokens l :
  without_tokens tokens (without_tokens tokens l) = without_tokens tokens l.
Proof. unfold without_tokens. by apply list_filter_filter_l. Qed.

Lemma without_tokens_with_token tokens n l :
  n ∉ without_tokens tokens l →
  without_tokens tokens (without_tokens tokens l ++ [n]) =
    if decide (n ∈ tokens) then without_tokens tokens l
    else without_tokens tokens l ++ [n].
Proof.
  intros _. unfold without_tokens at 1. rewrite filter_app.
  fold (without_tokens tokens (without_tokens tokens l)).
  rewrite without_tokens_idemp, filter_cons, filter_nil.
  destruct (decide (n ∈ tokens)).
  - rewrite (decide_False (P := n ∉ tokens)) by tauto. by rewrite app_nil_r.
  - by rewrite (decide_True (P := n ∉ tokens)).
Qed.

Lemma with_token_without_tokens_idemp tokens n l :
  with_token n (without_tokens tokens (with_token n (without_tokens tokens l))) =
    with_token n (without_tokens tokens l).
Proof.
  unfold with_token. set (L := without_tokens tokens l).
  destruct (decide (n ∈ L)) as [Hin|Hout].
  - unfold L. rewrite without_tokens_idemp. fold L. by rewrite decide_True.
  - unfold L. rewrite without_tokens_with_token by done. fold L.
    destruct (decide (n ∈ tokens)).
    + by rewrite decide_False.
    + rewrite decide_True; [done|]. apply elem_of_app. right. by left.
Qed.

Lemma class_update_idemp cfg name l :
  class_update cfg name (class_update cfg name l) = class_update cfg name l.
Proof.
  unfold class_update. destruct (tokens_error (attrs cfg)); [done|].
  destruct (truthy_text name) as [n|]; [|apply without_tokens_idemp].
  destruct (token_error n); [apply without_tokens_idemp|].
  apply with_token_without_tokens_idemp.
Qed.

Lemma data_prefix_not_class a : String.prefix "data-" a = true → a ≠ "class".
Proof. by intros H ->. Qed.

Lemma attr_write_classList eng cfg name a e :
  classList (attr_write eng cfg name a e) =
    if decide (a = "class") then class_update cfg name (classList e)
    else classList e.
Proof.
  unfold attr_write. case_decide; [done|].
  destruct (String.prefix "data-" a); [|done].
  destruct (truthy_text name); [|done]. by destruct (valid_attribute_name eng a).
Qed.

Lemma attr_write_attributes eng cfg name a e k :
  attributes (attr_write eng cfg name a e) !! k =
    if decide (writes_to eng name k a) then truthy_text name
    else attributes e !! k.
Proof.
  destruct (decide (writes_to eng name k a)) as [(Hp & Hk & Hv)|Hn].
  - unfold attr_write. rewrite decide_False by by apply data_prefix_not_class.
    unfold is_data_attribute in Hp. rewrite Hp. subst k.
    destruct (truthy_text name) as [n|]; [|apply lookup_delete_eq].
    destruct Hv as [?|Hv]; [done|]. rewrite Hv. apply lookup_insert_eq.
  - unfold attr_write. destruct (decide (a = "class")) as [|Hc]; [done|].
    destruct (String.prefix "data-" a) eqn:Hp; [|done].
    destruct (decide (ascii_lowercase a = k)) as [Hk|Hk].
    + destruct (truthy_text name) as [text|] eqn:Hname.
      * destruct (valid_attribute_name eng a) eqn:Hv; [|done].
        destruct Hn. split; [done|]. split; [done|]. by right.
      * destruct Hn. split; [done|]. split; [done|]. by left.
    + destruct (truthy_text name) as [text|]; [|by apply lookup_delete_ne].
      destruct (valid_attribute_name eng a); [|done]. by apply lookup_insert_ne.
Qed.

Lemma attr_write_style eng cfg name a e :
  style_colorScheme (attr_write eng cfg name a e) = style_colorScheme e.
Proof.
  unfold attr_write. case_decide; [done|].
  destruct (String.prefix "data-" a); [|done].
  destruct (truthy_text name); [|done]. by destruct (valid_attribute_name eng a).
Qed.

Section Fold.

Variables (eng : Engine) (cfg : Config) (name : JsValue).

Local Abbreviation step := (attribute_step eng cfg name).

Lemma foldl_classList l e :
  classList (foldl step e l) =
    if decide ("class" ∈ l) then class_update cfg name (classList e)
    else classList e.
Proof.
  revert e. induction l as [|a l IH]; intros e; simpl.
  - done.
  - rewrite IH. unfold attribute_step. rewrite attr_write_classList.
    destruct (decide (a = "class")) as [->|Ha].
    + rewrite (decide_True (P := "class" ∈ "class" :: l)) by left.
      case_decide; [apply class_update_idemp|done].
    + destruct (decide ("class" ∈ l)) as [Hin|Hout].
      * by rewrite decide_True by by right.
      * rewrite decide_False; [done|]. rewrite elem_of_cons. by intros [?|?].
Qed.

Lemma foldl_attributes l e k :
  attributes (foldl step e l) !! k =
    if decide (Exists (writes_to eng name k) l) then truthy_text name
    else attributes e !! k.
Proof.
  revert e. induction l as [|a l IH]; intros e.
  - destruct (decide (Exists (writes_to eng name k) [])) as [H|]; [|done].
    by apply Exists_nil in H.
  - change (foldl step e (a :: l)) with (foldl step (step e a) l).
    rewrite IH. unfold attribute_step. rewrite attr_write_attributes.
    destruct (decide (Exists (writes_to eng name k) l)) as [Hin|Hn].
    + rewrite decide_True; [done|]. by apply Exists_cons_tl.
    + destruct (decide (writes_to eng name k a)) as [Ha|Hn'].
      * rewrite decide_True; [done|]. by apply Exists_cons_hd.
      * rewrite decide_False; [done|]. rewrite Exists_cons. by intros [?|?].
Qed.

Lemma foldl_style l e :
  style_colorScheme (foldl step e l) = style_colorScheme e.
Proof.
  revert e. induction l as [|a l IH]; intros e; simpl; [done|].
  rewrite IH. apply attr_write_style.
Qed.

End Fold.

Lemma applyTheme_root_classList eng cfg r e :
  classList (applyTheme_root eng cfg r e) =
    if decide ("class" ∈ executed (attr_error eng cfg (name_for cfg eng r)) (targets cfg))
    then class_update cfg (name_for cfg eng r) (classList e)
    else classList e.
Proof.
  unfold applyTheme_root, attributes_root.
  destruct (apply_error eng cfg r); [apply foldl_classList|].
  destruct (enableColorScheme cfg); simpl; apply foldl_classList.
Qed.

Lemma applyTheme_root_attributes eng cfg r e k :
  attributes (applyTheme_root eng cfg r e) !! k =
    if decide (Exists (writes_to eng (name_for cfg eng r) k)
                 (executed (attr_error eng cfg (name_for cfg eng r)) (targets cfg)))
    then truthy_text (name_for cfg eng r)
    else attributes e !! k.
Proof.
  unfold applyTheme_root, attributes_root.
  destruct (apply_error eng cfg r); [apply foldl_attributes|].
  destruct (enableColorScheme cfg); simpl; apply foldl_attributes.
Qed.

Lemma applyTheme_root_style eng cfg r e :
  style_colorScheme (applyTheme_root eng cfg r e) =
    match apply_error eng cfg r with
    | Some _ => style_colorScheme e
    | None =>
        if enableColorScheme cfg then colorScheme_for cfg r else style_colorScheme e
    end.
Proof.
  unfold applyTheme_root, attributes_root.
  destruct (apply_error eng cfg r); [apply foldl_style|].
  destruct (enableColorScheme cfg); [done|]. apply foldl_style.
Qed.

Lemma applyTheme_root_idemp eng cfg r e :
  applyTheme_root eng cfg r (applyTheme_root eng cfg r e) = applyTheme_root eng cfg r e.
Proof.
  apply Element_eq.
  - rewrite !applyTheme_root_classList. case_decide; [apply class_update_idemp|done].
  - apply map_eq. intros k. rewrite !applyTheme_root_attributes. by case_decide.
  - rewrite !applyTheme_root_style. destruct (apply_error eng cfg r); [done|].
    by destruct (enableColorScheme cfg).
Qed.

Lemma includes_colorSchemes x :
  includes colorSchemes x = true ↔ x = "light" ∨ x = "dark".
Proof.
  unfold includes, colorSchemes. rewrite bool_decide_eq_true, !elem_of_cons.
  split; [intros [?|[?|H]]; auto; by apply not_elem_of_nil in H|intros [?|?]; auto].
Qed.

Lemma includes_colorSchemes_false x :
  x ≠ "light" → x ≠ "dark" → includes colorSchemes x = false.
Proof.
  intros H1 H2. apply not_true_is_false. rewrite includes_colorSchemes. by intros [?|?].
Qed.

(** ** [handleSetTheme] *)

Lemma systemTheme_cases w : systemTheme w = "dark" ∨ systemTheme w = "light".
Proof. unfold systemTheme. destruct (prefersDark_matches w); auto. Qed.

Lemma resolved_theme_not_system cfg w : resolved_theme cfg w ≠ "system".
Proof.
  unfold resolved_theme. simpl. case_decide; [|done].
  by destruct (systemTheme_cases w) as [-> | ->].
Qed.

Lemma resolved_theme_ext cfg w1 w2 :
  localStorage w1 = localStorage w2 →
  prefersDark_matches w1 = prefersDark_matches w2 →
  resolved_theme cfg w1 = resolved_theme cfg w2.
Proof.
  intros Hs Hp. unfold resolved_theme, persisted, systemTheme. by rewrite Hs, Hp.
Qed.

Lemma saved_run key v w : saveToLS key v w = (Normal tt, saved key v w).
Proof. apply saveToLS_run. Qed.

Lemma saved_prefersDark key v w :
  prefersDark_matches (saved key v w) = prefersDark_matches w.
Proof. unfold saved. by destruct (write_fails key v w). Qed.

Lemma saved_document key v w : document (saved key v w) = document w.
Proof. unfold saved. by destruct (write_fails key v w). Qed.

Lemma saved_engine key v w : engine (saved key v w) = engine w.
Proof. unfold saved. by destruct (write_fails key v w). Qed.

Lemma saved_write_fails key v w :
  write_fails key v (saved key v w) = write_fails key v w.
Proof. unfold saved. by destruct (write_fails key v w) eqn:E. Qed.

Lemma saved_idemp key v w : saved key v (saved key v w) = saved key v w.
Proof.
  unfold saved at 1. rewrite saved_write_fails. unfold saved.
  destruct (write_fails key v w); [done|].
  unfold with_items; simpl. by rewrite insert_insert_eq.
Qed.

Lemma saved_localStorage_ext key v w1 w2 :
  localStorage w1 = localStorage w2 →
  localStorage (saved key v w1) = localStorage (saved key v w2).
Proof.
  intros H. unfold saved, write_fails, with_items. rewrite H.
  by destruct (denied (localStorage w2) || over_quota (localStorage w2) key v).
Qed.

Lemma persisted_ext key w1 w2 :
  localStorage w1 = localStorage w2 → persisted key w1 = persisted key w2.
Proof. unfold persisted. by intros ->. Qed.

Lemma persisted_saved key v w :
  write_fails key v w = false → persisted key (saved key v w) = Some v.
Proof.
  intros Hf. unfold saved. rewrite Hf.
  apply orb_false_iff in Hf as [Hd _].
  unfold persisted. simpl. rewrite Hd. apply lookup_insert_eq.
Qed.

(** Once the resolved theme is what the storage holds, it is what is
    resolved, whatever the media query. *)
Lemma resolved_theme_pinned cfg w w2 :
  persisted (storageKey cfg) w2 = Some (resolved_theme cfg w) →
  resolved_theme cfg w2 = resolved_theme cfg w.
Proof.
  set (t := resolved_theme cfg w). intros Hp.
  unfold resolved_theme at 1. rewrite Hp. simpl.
  pose proof (resolved_theme_not_system cfg w) as Hns. fold t in Hns.
  destruct (js_or_str_cases (Some t) (defaultTheme cfg))
    as [(s & [= <-] & _ & ->)|[[?|[= Ht]] ->]]; [by rewrite decide_False| done|].
  assert (defaultTheme cfg = "") as ->; [|by rewrite decide_False].
  revert Ht. unfold t, resolved_theme. simpl. case_decide.
  - by destruct (systemTheme_cases w) as [-> | ->].
  - destruct (js_or_str_cases (persisted (storageKey cfg) w) (defaultTheme cfg))
      as [(s & _ & Hs & ->)|[_ ->]]; [by intros ->|done].
Qed.

(** Saving the resolved theme does not change what is resolved next. *)
Lemma resolved_theme_saved cfg w :
  resolved_theme cfg (saved (storageKey cfg) (resolved_theme cfg w) w) =
    resolved_theme cfg w.
Proof.
  destruct (write_fails (storageKey cfg) (resolved_theme cfg w) w) eqn:Hf.
  - unfold saved. by rewrite Hf.
  - apply resolved_theme_pinned. by apply persisted_saved.
Qed.

(** [handleSetTheme] saves the effective theme and then applies it to the
    current document. *)
Lemma handleSetTheme_run cfg x w :
  let t := effective_theme cfg x w in
  handleSetTheme cfg x w = applyTheme cfg (Some t) None (saved (storageKey cfg) t w).
Proof.
  unfold handleSetTheme, effective_theme. destruct (nonempty x) as [s|].
  - by erewrite bind_Normal by apply saved_run.
  - erewrite bind_Normal by apply getResolveTheme_run.
    by erewrite bind_Normal by apply saved_run.
Qed.

Lemma root_of_None w : root_of None w = root w.
Proof. done. Qed.

Lemma handleSetTheme_exec cfg x w :
  let t := effective_theme cfg x w in
  let w' := exec (handleSetTheme cfg x) w in
  localStorage w' = localStorage (saved (storageKey cfg) t w) ∧
  prefersDark_matches w' = prefersDark_matches w ∧
  engine w' = engine w ∧
  root w' = match nonempty (Some t) with
            | Some t' => applyTheme_root (engine w) cfg (resolved_for cfg w t') (root w)
            | None => root w
            end.
Proof.
  intros t w'. unfold w', exec. rewrite handleSetTheme_run. fold t.
  destruct (applyTheme_exec cfg (Some t) None (saved (storageKey cfg) t w))
    as (Hls & Hp & He & Hroot).
  unfold exec in *. rewrite Hls, Hp, He, saved_prefersDark, saved_engine.
  split; [done|]. split; [done|]. split; [done|].
  rewrite <- !root_of_None, Hroot. unfold root_of. simpl default.
  unfold deref. rewrite saved_document, saved_engine.
  destruct (nonempty (Some t)) as [t'|]; [|done].
  by rewrite (resolved_for_ext cfg (saved (storageKey cfg) t w) w) by apply saved_prefersDark.
Qed.

Lemma handleSetTheme_localStorage cfg x w :
  localStorage (exec (handleSetTheme cfg x) w) =
    localStorage (saved (storageKey cfg) (effective_theme cfg x w) w).
Proof. apply handleSetTheme_exec. Qed.

Lemma handleSetTheme_prefersDark cfg x w :
  prefersDark_matches (exec (handleSetTheme cfg x) w) = prefersDark_matches w.
Proof. apply handleSetTheme_exec. Qed.

Lemma handleSetTheme_engine cfg x w :
  engine (exec (handleSetTheme cfg x) w) = engine w.
Proof. apply handleSetTheme_exec. Qed.

Lemma handleSetTheme_root cfg x w :
  root (exec (handleSetTheme cfg x) w) =
    match nonempty (Some (effective_theme cfg x w)) with
    | Some t => applyTheme_root (engine w) cfg (resolved_for cfg w t) (root w)
    | None => root w
    end.
Proof. apply handleSetTheme_exec. Qed.

Lemma effective_theme_stable cfg x w w' :
  localStorage w' = localStorage (saved (storageKey cfg) (effective_theme cfg x w) w) →
  prefersDark_matches w' = prefersDark_matches w →
  effective_theme cfg x w' = effective_theme cfg x w.
Proof.
  unfold effective_theme. destruct (nonempty x); [done|]. intros Hls Hp.
  etrans; [|apply resolved_theme_saved].
  apply resolved_theme_ext; [done|]. by rewrite saved_prefersDark.
Qed.

Lemma refreshTheme_run cfg w :
  refreshTheme cfg w = applyTheme cfg (Some (resolved_theme cfg w)) None w.
Proof. unfold refreshTheme. by erewrite bind_Normal by apply getResolveTheme_run. Qed.

Lemma handleBeforeSwap_run cfg w :
  handleBeforeSwap cfg w =
    applyTheme cfg (Some (resolved_theme cfg w)) (Some IncomingDocument) w.
Proof. unfold handleBeforeSwap. by erewrite bind_Normal by apply getResolveTheme_run. Qed.

(** ** Scenarios *)

(** Default configuration, nothing stored, the system prefers dark: the page
    load writes [data-theme="dark"]. *)
Example scenario_system_dark :
  attributes (root (exec (refreshTheme (define_vars no_props)) (browser ∅ true)))
    !! "data-theme" = Some "dark".
Proof. reflexivity. Qed.

(** [setTheme("dark")] with the storage key [theme]: the storage holds
    [dark] under [theme] and the root element carries [data-theme="dark"]. *)
Example scenario_setTheme_dark :
  let w := exec (Utils.setTheme (define_vars no_props) (Some "dark")) (browser ∅ false) in
  items (localStorage w) !! "theme" = Some "dark" ∧
  attributes (root w) !! "data-theme" = Some "dark".
Proof. by vm_compute. Qed.

(** With [disableTransitionOnChange], the style element is in the head right
    after [applyTheme] and gone once the pending timeout has run. *)
Example scenario_transitions_suppressed :
  let cfg := define_vars
               (mkProps None None None (Some true) None None None None None None) in
  let w := exec (applyTheme cfg (Some "dark") None) (browser ∅ false) in
  node_text <$> headChildren (document w) = [transition_css] ∧
  timeouts w = [mkTimer 1 0] ∧
  headChildren (document (run_timeouts w)) = [].
Proof. by vm_compute. Qed.

(** A class token with white space: [classList.add] throws
    [InvalidCharacterError] after [classList.remove] has run; the class is not
    added, the color scheme is not written, and with
    [disableTransitionOnChange] the style element stays in the head with no
    timeout pending. *)
Example scenario_invalid_class_token :
  let cfg := define_vars
               (mkProps None None None (Some true) None None None
                  (Some (OneAttribute "class")) None None) in
  let w := with_root CurrentDocument (λ _, mkElement ["light"] ∅ None) (browser ∅ false) in
  (applyTheme cfg (Some "my theme") None w).1 = Throw InvalidCharacterError ∧
  root (exec (applyTheme cfg (Some "my theme") None) w) = mkElement [] ∅ None ∧
  length (headChildren (document (exec (applyTheme cfg (Some "my theme") None) w))) = 1 ∧
  timeouts (exec (applyTheme cfg (Some "my theme") None) w) = [].
Proof. by vm_compute. Qed.

(** A theme that names a member of [Object.prototype]: the lookup on the
    value map finds the inherited function, and [setAttribute] receives its
    string conversion. *)
Example scenario_inherited_member :
  let cfg := define_vars
               (mkProps None None None None None None None None
                  (Some {[ "dark" := "night" ]}) None) in
  attributes (root (exec (applyTheme cfg (Some "toString") None) (browser ∅ false)))
    !! "data-theme" = Some "function toString() { [native code] }".
Proof. by vm_compute. Qed.

(** An attribute target with capitals: the attribute written is the
    lower-cased one. *)
Example scenario_attribute_lowercased :
  let cfg := define_vars
               (mkProps None None None None None None None
                  (Some (OneAttribute "data-Theme")) None None) in
  let e := root (exec (applyTheme cfg (Some "dark") None) (browser ∅ false)) in
  attributes e !! "data-theme" = Some "dark" ∧ attributes e !! "data-Theme" = None.
Proof. by vm_compute. Qed.

(** ** Completions of [applyTheme] *)

Lemma completion_of_Normal error : completion_of error = Normal tt ↔ error = None.
Proof. by destruct error. Qed.

Lemma completion_of_Throw error x : completion_of error = Throw x ↔ error = Some x.
Proof. destruct error; simpl; split; intros; by simplify_eq. Qed.

Lemma applyTheme_completion cfg t doc w :
  t ≠ "" →
  (applyTheme cfg (Some t) doc w).1 =
    completion_of (apply_error (engine w) cfg (resolved_for cfg w t)).
Proof. intros Ht. by rewrite applyTheme_state_run. Qed.


Lemma first_error_None_executed error l :
  first_error error l = None → executed error l = l.
Proof.
  induction l as [|a l IH]; simpl; [done|].
  destruct (error a); [done|]. intros H. by rewrite IH.
Qed.

Lemma first_error_None_all error l a :
  first_error error l = None → a ∈ l → error a = None.
Proof.
  induction l as [|b l IH]; simpl; intros H Ha; [by apply not_elem_of_nil in Ha|].
  destruct (error b) eqn:E; [done|].
  apply elem_of_cons in Ha as [->|Ha]; [done|]. by apply IH.
Qed.

Lemma executed_subset error l a : a ∈ executed error l → a ∈ l.
Proof.
  induction l as [|b l IH]; simpl; [done|].
  destruct (error b).
  - intros ->%list_elem_of_singleton. left.
  - intros [->|H]%elem_of_cons; [left|right; by apply IH].
Qed.

(** * The claims *)

(** ** C1: the forced theme *)

(** C1.  The claim: when a forced theme is configured, the theme applied to
    the root element on page load is the forced theme.  The script never reads
    [forcedTheme]: what the page load does is the same for every value of it,
    and on a page with [forcedTheme="dark"], [defaultTheme="light"] and an
    empty storage the page load writes [data-theme="light"] and the color
    scheme [light]. *)
Theorem C1_forcedTheme_not_applied :
  (∀ cfg f w, refreshTheme (with_forcedTheme f cfg) w = refreshTheme cfg w) ∧
  let cfg := define_vars forced_dark_props in
  let w := exec (refreshTheme cfg) (browser ∅ true) in
  forcedTheme cfg = Some "dark" ∧
  attributes (root w) !! "data-theme" = Some "light" ∧
  style_colorScheme (root w) = Some "light".
Proof. split; [done|]. by vm_compute. Qed.

(** ** C3: substitution of the system theme *)

(** C3.  The claim: [getResolveTheme] replaces [system] by the media-query
    result exactly when system detection is enabled.  On a page with
    [enableSystem={false}] whose storage holds [system], with the media query
    matching dark, [getResolveTheme] still returns [dark] and the page load
    writes [data-theme="dark"]; [applyTheme], which has the [enableSystem]
    test, writes [data-theme="system"] for the same theme. *)
Theorem C3_system_substituted_when_disabled :
  let cfg := define_vars no_system_props in
  let w := browser {[ "theme" := "system" ]} true in
  enableSystem cfg = false ∧
  getResolveTheme cfg w = (Normal "dark", w) ∧
  attributes (root (exec (refreshTheme cfg) w)) !! "data-theme" = Some "dark" ∧
  attributes (root (exec (applyTheme cfg (Some "system") None) w)) !! "data-theme"
    = Some "system".
Proof. by vm_compute. Qed.

(** ** C4: the class list *)

(** C4.  The claim: with the [class] target, [applyTheme] first removes every
    class value that a theme could have written, the mapped values when a
    value map is configured.  The script removes [attrs], which holds the keys
    of the value map (the theme names), not its values: with the map
    [light ↦ theme-light], [dark ↦ theme-dark], applying [light] and then
    [dark] leaves both [theme-light] and [theme-dark] on the root element. *)
Theorem C4_mapped_class_not_removed :
  let cfg := define_vars class_map_props in
  let w1 := exec (applyTheme cfg (Some "light") None) (browser ∅ false) in
  let w2 := exec (applyTheme cfg (Some "dark") None) w1 in
  (∀ c, c ∈ attrs cfg ↔ c = "light" ∨ c = "dark") ∧
  classList (root w1) = ["theme-light"] ∧
  classList (root w2) = ["theme-light"; "theme-dark"].
Proof.
  split; [|by vm_compute].
  intros c. unfold attrs. simpl.
  rewrite list_elem_of_fmap. split.
  - intros [[k v] [-> Hkv]]. apply elem_of_map_to_list in Hkv. simpl.
    apply lookup_insert_Some in Hkv as [[<- _]|[_ Hkv]]; [by left|].
    apply lookup_singleton_Some in Hkv as [<- _]. by right.
  - intros [->| ->].
    + exists ("light", "theme-light"). split; [done|]. by apply elem_of_map_to_list.
    + exists ("dark", "theme-dark"). split; [done|]. by apply elem_of_map_to_list.
Qed.

(** ** C2: resolution of a theme other than [system] *)

(** C2 as stated: whenever a value other than [system] is present in the
    storage under the storage key, [getResolveTheme] returns it.  It fails for
    the empty string, which [getTheme] treats like a missing entry: with
    [theme ↦ ""] stored and the default theme [light], the result is
    [light]. *)
Lemma C2_counterexample :
  ¬ (∀ (cfg : Config) (w : Browser) (v : string),
       v ≠ "system" →
       denied (localStorage w) = false →
       items (localStorage w) !! storageKey cfg = Some v →
       getResolveTheme cfg w = (Normal v, w)).
Proof.
  intros H.
  specialize (H (define_vars no_system_props) (browser {[ "theme" := "" ]} false) "").
  by vm_compute in H; specialize (H ltac:(discriminate) eq_refl eq_refl).
Qed.

(** C2, amended.  When the storage can be read and holds under the storage
    key a non-empty value other than [system], [getResolveTheme] returns that
    value; when the storage cannot be read, or holds no value or the empty
    string under the key, and the default theme is not [system], it returns
    the default theme.  In both cases the state is left as it was. *)
Theorem C2_resolve_stored_or_default (cfg : Config) (w : Browser) :
  (∀ v, denied (localStorage w) = false →
        items (localStorage w) !! storageKey cfg = Some v →
        v ≠ "" → v ≠ "system" →
        getResolveTheme cfg w = (Normal v, w)) ∧
  (denied (localStorage w) = true ∨
   items (localStorage w) !! storageKey cfg = None ∨
   items (localStorage w) !! storageKey cfg = Some "" →
   defaultTheme cfg ≠ "system" →
   getResolveTheme cfg w = (Normal (defaultTheme cfg), w)).
Proof.
  rewrite getResolveTheme_run. unfold resolved_theme, persisted. split.
  - intros v -> -> Hne Hns. simpl.
    assert (js_or_str (Some v) (defaultTheme cfg) = v) as ->.
    { unfold js_or_str. by assert (nonempty (Some v) = Some v) as -> by by apply nonempty_Some. }
    by rewrite decide_False.
  - intros Hcases Hns. simpl.
    assert (js_or_str (if denied (localStorage w) then None
                       else items (localStorage w) !! storageKey cfg)
              (defaultTheme cfg) = defaultTheme cfg) as ->.
    { destruct Hcases as [-> | [-> | ->]]; [done| |]; by destruct (denied _). }
    by rewrite decide_False.
Qed.

Lemma C2_resolve_witness :
  getResolveTheme (define_vars no_props) (browser {[ "theme" := "dark" ]} false)
    = (Normal "dark", browser {[ "theme" := "dark" ]} false) ∧
  getResolveTheme (define_vars no_system_props) (private_browser ∅ true)
    = (Normal "light", private_browser ∅ true).
Proof.
  split.
  - apply (proj1 (C2_resolve_stored_or_default (define_vars no_props)
                    (browser {[ "theme" := "dark" ]} false)) "dark");
      [reflexivity | reflexivity | discriminate | discriminate].
  - apply (proj2 (C2_resolve_stored_or_default (define_vars no_system_props)
                    (private_browser ∅ true)));
      [left; reflexivity | discriminate].
Defined.

(** ** C5: [setTheme] with a theme *)




(** ** C6: storage events *)

(** C6 as stated: when the key matches and the new value is not [null], that
    value is applied.  It fails for the empty string: the handler applies the
    default theme instead (here [light], which sets [data-theme]), while
    applying the empty string would change nothing. *)
Lemma C6_counterexample :
  ¬ (∀ (cfg : Config) (w : Browser) (v : string),
       handleStorage cfg (Some (storageKey cfg)) (Some v) w =
         applyTheme cfg (Some v) None w).
Proof.
  intros H.
  specialize (H (define_vars no_system_props) (browser ∅ false) "").
  by vm_compute in H.
Qed.

(** C6, amended.  A storage event whose key is not the storage key leaves the
    state as it is.  When the key matches and the new value is [null] or the
    empty string, the handler applies the default theme; when the key matches
    and the new value is a non-empty string, it applies that value. *)
Theorem C6_handleStorage (cfg : Config) (key newValue : option string) (w : Browser) :
  (key ≠ Some (storageKey cfg) → handleStorage cfg key newValue w = (Normal tt, w)) ∧
  (key = Some (storageKey cfg) → newValue = None ∨ newValue = Some "" →
     handleStorage cfg key newValue w = applyTheme cfg (Some (defaultTheme cfg)) None w) ∧
  (∀ v, key = Some (storageKey cfg) → newValue = Some v → v ≠ "" →
     handleStorage cfg key newValue w = applyTheme cfg (Some v) None w).
Proof.
  unfold handleStorage. split; [|split].
  - intros Hk. by rewrite decide_True.
  - intros -> Hv. rewrite decide_False by (by intros []).
    unfold js_or_str. by assert (nonempty newValue = None) as -> by by apply nonempty_None.
  - intros v -> -> Hv. rewrite decide_False by (by intros []).
    unfold js_or_str. by assert (nonempty (Some v) = Some v) as -> by by apply nonempty_Some.
Qed.

Lemma C6_handleStorage_witness :
  let cfg := define_vars no_props in
  let w := browser {[ "theme" := "dark" ]} false in
  handleStorage cfg (Some "other") (Some "dark") w = (Normal tt, w) ∧
  handleStorage cfg (Some "theme") None w = applyTheme cfg (Some "system") None w ∧
  handleStorage cfg (Some "theme") (Some "dark") w = applyTheme cfg (Some "dark") None w.
Proof.
  intros cfg w. split; [|split].
  - apply (proj1 (C6_handleStorage cfg (Some "other") (Some "dark") w)). discriminate.
  - apply (proj1 (proj2 (C6_handleStorage cfg (Some "theme") None w)));
      [reflexivity | left; reflexivity].
  - apply (proj2 (proj2 (C6_handleStorage cfg (Some "theme") (Some "dark") w)) "dark");
      [reflexivity | reflexivity | discriminate].
Defined.

(** ** C7: [setTheme] is idempotent *)

(** C7.  For every detail [x] (a theme, the empty string or [null]) and every
    state, dispatching [set-theme] with [x] twice in a row ends in the same
    storage and the same root element (class list, attributes and color
    scheme) as dispatching it once. *)
Theorem C7_setTheme_idempotent (cfg : Config) (x : option string) (w : Browser) :
  let once := exec (Utils.setTheme cfg x) w in
  let twice := exec (Utils.setTheme cfg x) once in
  localStorage twice = localStorage once ∧ root twice = root once.
Proof.
  unfold Utils.setTheme. rewrite !exec_dispatchEvent.
  set (w1 := exec (handleSetTheme cfg x) w).
  destruct (handleSetTheme_exec cfg x w) as (Hls1 & Hp1 & He1 & Hroot1).
  destruct (handleSetTheme_exec cfg x w1) as (Hls2 & Hp2 & He2 & Hroot2).
  fold w1 in Hls1, Hp1, He1, Hroot1.
  rewrite (effective_theme_stable cfg x w w1 Hls1 Hp1) in Hls2, Hroot2.
  set (t := effective_theme cfg x w) in *. split.
  - rewrite Hls2, Hls1.
    rewrite (saved_localStorage_ext _ _ w1 (saved (storageKey cfg) t w)) by done.
    by rewrite saved_idemp.
  - rewrite Hroot2, Hroot1, He1. destruct (nonempty (Some t)) as [t'|]; [|done].
    rewrite (resolved_for_ext cfg w1 w) by done.
    apply applyTheme_root_idemp.
Qed.

(** ** C8: the color-scheme hint *)

(** C8 as stated covers every theme that [applyTheme] is called with.  For a
    falsy theme [applyTheme] returns before it reaches the style: on a page
    with the default theme [light] the property stays unset instead of
    becoming [light]; and on a page whose default theme is the empty string, a
    root element that carries [dark] keeps it instead of being cleared.  And
    for a truthy theme that the class list rejects, [applyTheme] throws before
    it reaches the style: with the [class] target, the default theme [light]
    and the theme [my theme] the property stays unset as well. *)
Lemma C8_counterexample :
  (let cfg := define_vars no_system_props in
   enableColorScheme cfg = true ∧ defaultTheme cfg = "light" ∧
   style_colorScheme (root (exec (applyTheme cfg (Some "") None) (browser ∅ false)))
     ≠ Some "light") ∧
  (let cfg := define_vars (mkProps None None None None None None (Some "") None None None) in
   let w := exec (handleSetTheme cfg (Some "dark")) (browser ∅ false) in
   enableColorScheme cfg = true ∧ defaultTheme cfg = "" ∧
   style_colorScheme (root w) = Some "dark" ∧
   style_colorScheme (root (exec (handleStorage cfg (Some "theme") None) w)) ≠ None) ∧
  (let cfg := define_vars
                (mkProps None None (Some false) None None None None
                   (Some (OneAttribute "class")) None None) in
   enableColorScheme cfg = true ∧ defaultTheme cfg = "light" ∧
   style_colorScheme (root (exec (applyTheme cfg (Some "my theme") None) (browser ∅ false)))
     ≠ Some "light").
Proof. by vm_compute. Qed.

(** C8, amended.  When the color-scheme flag is enabled, the theme is truthy
    and [applyTheme] ends normally (none of its calls on the class list and
    the attributes throws), it sets the color scheme of the root element to
    the resolved theme if that is [light] or [dark]; otherwise to the default
    theme if that is [light] or [dark]; otherwise it clears the property.
    When one of those calls throws, the color scheme is left as it was.  The
    resolved theme is the media-query result when the theme is [system] and
    system detection is enabled, else the theme itself. *)
Theorem C8_colorScheme (cfg : Config) (t : string) (doc : option DocRef) (w : Browser) :
  enableColorScheme cfg = true →
  t ≠ "" →
  let resolved := if decide (t = "system" ∧ enableSystem cfg = true)
                  then (if prefersDark_matches w then "dark" else "light") else t in
  let d := documentElement (deref (default CurrentDocument doc)
                              (exec (applyTheme cfg (Some t) doc) w)) in
  ((applyTheme cfg (Some t) doc w).1 = Normal tt →
   (resolved = "light" ∨ resolved = "dark" → style_colorScheme d = Some resolved) ∧
   (resolved ≠ "light" → resolved ≠ "dark" →
    defaultTheme cfg = "light" ∨ defaultTheme cfg = "dark" →
    style_colorScheme d = Some (defaultTheme cfg)) ∧
   (resolved ≠ "light" → resolved ≠ "dark" →
    defaultTheme cfg ≠ "light" → defaultTheme cfg ≠ "dark" →
    style_colorScheme d = None)) ∧
  (∀ x, (applyTheme cfg (Some t) doc w).1 = Throw x →
        style_colorScheme d =
          style_colorScheme (documentElement (deref (default CurrentDocument doc) w))).
Proof.
  intros Hcs Ht resolved d.
  assert (resolved = resolved_for cfg w t) as Hr.
  { unfold resolved, resolved_for, systemTheme.
    destruct (decide (t = "system")) as [->|Hs].
    - destruct (enableSystem cfg); [by rewrite decide_True|].
      by rewrite decide_False by (by intros [_ ?]).
    - by rewrite decide_False by (by intros [? _]). }
  assert (style_colorScheme d =
            match apply_error (engine w) cfg resolved with
            | Some _ => style_colorScheme
                          (documentElement (deref (default CurrentDocument doc) w))
            | None => colorScheme_for cfg resolved
            end) as ->.
  { unfold d. fold (root_of doc (exec (applyTheme cfg (Some t) doc) w)).
    rewrite applyTheme_exec_root, nonempty_Some_id by done.
    by rewrite applyTheme_root_style, Hcs, Hr. }
  clear d. rewrite applyTheme_completion, <- Hr by done. split.
  - intros ->%completion_of_Normal. unfold colorScheme_for. split; [|split].
    + intros Hcanon. by rewrite (proj2 (includes_colorSchemes _)).
    + intros H1 H2 Hdef.
      rewrite includes_colorSchemes_false by done.
      by rewrite (proj2 (includes_colorSchemes _)).
    + intros H1 H2 H3 H4. by rewrite !includes_colorSchemes_false.
  - by intros x ->%completion_of_Throw.
Qed.

Lemma C8_colorScheme_witness :
  let cfg := define_vars no_props in
  style_colorScheme (root (exec (applyTheme cfg (Some "system") None) (browser ∅ true)))
    = Some "dark".
Proof.
  intros cfg.
  apply (proj1 (proj1 (C8_colorScheme cfg "system" None (browser ∅ true)
                         ltac:(reflexivity) ltac:(discriminate))
                  ltac:(reflexivity))).
  right. reflexivity.
Defined.

(** ** C9: the exported [getTheme] helpers *)

(** C9 as stated: both helpers return [undefined] in every state.  The one
    of [utils.ts] reads the storage outside any [try]: when access to the
    storage is refused it ends by throwing, not by returning. *)
Lemma C9_counterexample :
  ¬ (∀ (fallback : option string) (w : Browser),
       ∃ w', Utils.getTheme fallback w = (Normal None, w')).
Proof.
  intros H. destruct (H (Some "light") (private_browser ∅ false)) as [w' Hw'].
  by vm_compute in Hw'.
Qed.

(** C9, amended.  The helper of the frontmatter returns [undefined] in every
    state, and the helper of [utils.ts] returns [undefined] for every fallback
    in every state whose storage can be read; both leave the state as it was.
    In no state does either return a string (the stored value, the fallback or
    any other): when the storage cannot be read, the helper of [utils.ts]
    throws. *)
Theorem C9_getTheme_returns_undefined (fallback : option string) (w : Browser) :
  Frontmatter.getTheme w = (Normal None, w) ∧
  (denied (localStorage w) = false → Utils.getTheme fallback w = (Normal None, w)) ∧
  (denied (localStorage w) = true →
     Utils.getTheme fallback w = (Throw SecurityError, w)) ∧
  (∀ s w', Frontmatter.getTheme w ≠ (Normal (Some s), w') ∧
           Utils.getTheme fallback w ≠ (Normal (Some s), w')).
Proof.
  unfold Frontmatter.getTheme, Utils.getTheme, getItem, mbind, Js_bind, mret, Js_ret.
  split; [done|]. destruct (denied (localStorage w)); by repeat split.
Qed.

Lemma C9_getTheme_witness :
  Utils.getTheme (Some "dark") (browser {[ "theme" := "light" ]} false)
    = (Normal None, browser {[ "theme" := "light" ]} false) ∧
  Utils.getTheme (Some "dark") (private_browser ∅ false)
    = (Throw SecurityError, private_browser ∅ false).
Proof.
  split.
  - apply (proj1 (proj2 (C9_getTheme_returns_undefined (Some "dark")
                           (browser {[ "theme" := "light" ]} false)))).
    reflexivity.
  - apply (proj1 (proj2 (proj2 (C9_getTheme_returns_undefined (Some "dark")
                                  (private_browser ∅ false))))).
    reflexivity.
Defined.

(** ** C10: [set-theme] without a theme, and falsy themes *)

(** C10.  When the detail of a [set-theme] event is falsy ([null],
    [undefined] or the empty string), the handler resolves the theme first:
    the value it saves is the result [t] of [getResolveTheme], which is never
    [system] (where the stored or default theme is [system], it is the
    media-query result [dark] or [light]); the write comes before the theme is
    applied, so that when the write succeeds the storage holds [t] under the
    storage key in the state the handler ends in, whether or not applying [t]
    throws, and when the write throws the storage is as before.  And
    [applyTheme] on a falsy theme ends normally and leaves the whole state,
    storage and documents, as it was. *)
Theorem C10_falsy_detail_and_theme (cfg : Config) (v : option string) (doc : option DocRef)
    (w : Browser) :
  v = None ∨ v = Some "" →
  (∃ t, getResolveTheme cfg w = (Normal t, w) ∧
        t ≠ "system" ∧
        (js_or_str (persisted (storageKey cfg) w) (defaultTheme cfg) = "system" →
           t = if prefersDark_matches w then "dark" else "light") ∧
        handleSetTheme cfg v w =
          applyTheme cfg (Some t) None (saved (storageKey cfg) t w) ∧
        (write_fails (storageKey cfg) t w = false →
           items (localStorage (exec (handleSetTheme cfg v) w)) !! storageKey cfg
             = Some t) ∧
        (write_fails (storageKey cfg) t w = true →
           localStorage (exec (handleSetTheme cfg v) w) = localStorage w)) ∧
  applyTheme cfg v doc w = (Normal tt, w).
Proof.
  intros Hv. apply nonempty_None in Hv. split; [|by apply applyTheme_falsy].
  pose proof (handleSetTheme_localStorage cfg v w) as Hls.
  pose proof (handleSetTheme_run cfg v w) as Hrun. simpl in *.
  unfold effective_theme in *. rewrite Hv in *.
  exists (resolved_theme cfg w).
  split; [apply getResolveTheme_run|]. split; [apply resolved_theme_not_system|].
  split; [|split; [done|split]].
  - intros Hsys. unfold resolved_theme. simpl. by rewrite decide_True.
  - intros Hf. rewrite Hls. unfold saved. rewrite Hf. simpl. apply lookup_insert_eq.
  - intros Hf. rewrite Hls. unfold saved. by rewrite Hf.
Qed.

Lemma C10_falsy_witness :
  let cfg := define_vars no_props in
  let w := browser ∅ true in
  items (localStorage (exec (handleSetTheme cfg None) w)) !! "theme" = Some "dark" ∧
  applyTheme cfg (Some "") None w = (Normal tt, w).
Proof.
  intros cfg w.
  destruct (C10_falsy_detail_and_theme cfg None None w ltac:(left; reflexivity))
    as [(t & Hres & _ & Hsys & _ & Hok & _) _].
  split.
  - assert (t = "dark") as <- by (apply Hsys; reflexivity).
    apply Hok. inversion Hres. reflexivity.
  - apply (C10_falsy_detail_and_theme cfg (Some "") None w). right. reflexivity.
Defined.

(** * Further properties of the script *)

(** Decidable side conditions on concrete data are settled by evaluation. *)
Ltac by_evaluation :=
  match goal with |- ?P => apply (bool_decide_eq_true_1 P) end; vm_compute; reflexivity.

Lemma apply_error_None_executed eng cfg r :
  apply_error eng cfg r = None →
  executed (attr_error eng cfg (name_for cfg eng r)) (targets cfg) = targets cfg.
Proof. apply first_error_None_executed. Qed.

(** ** Data attributes *)

(** X1.  When [applyTheme] ends normally on a truthy theme, every configured
    target that starts with [data-] has been written under its lower-cased
    name: the attribute carries what [value[resolved]] yields (the resolved
    theme itself when there is no value map; the string conversion of the
    member when the lookup finds one inherited from [Object.prototype]), and
    it is absent when that is undefined or the empty string. *)
Theorem X1_data_attribute_written (cfg : Config) (t : string) (doc : option DocRef)
    (w : Browser) (a : string) :
  t ≠ "" →
  a ∈ targets cfg →
  String.prefix "data-" a = true →
  (applyTheme cfg (Some t) doc w).1 = Normal tt →
  attributes (root_of doc (exec (applyTheme cfg (Some t) doc) w)) !! ascii_lowercase a =
    truthy_text (name_for cfg (engine w) (resolved_for cfg w t)).
Proof.
  intros Ht Ha Hp Hn. rewrite applyTheme_completion in Hn by done.
  apply completion_of_Normal in Hn.
  rewrite applyTheme_exec_root, nonempty_Some_id by done.
  rewrite applyTheme_root_attributes, decide_True; [done|].
  rewrite apply_error_None_executed by done.
  apply Exists_exists. exists a. split; [done|].
  split; [done|]. split; [done|].
  pose proof (first_error_None_all _ _ a Hn Ha) as Hok.
  unfold attr_error in Hok. rewrite decide_False in Hok by by apply data_prefix_not_class.
  rewrite Hp in Hok.
  destruct (truthy_text _); [|by left]. right.
  by destruct (valid_attribute_name (engine w) a).
Qed.

Lemma X1_data_attribute_witness :
  let cfg := define_vars
    (mkProps None None None None None None None
       (Some (AttributeArray ["class"; "data-Mode"]))
       (Some {[ "dark" := "night" ]}) None) in
  attributes (root (exec (applyTheme cfg (Some "dark") None) (browser ∅ false)))
    !! "data-mode" = Some "night" ∧
  attributes (root (exec (applyTheme cfg (Some "light") None)
                      (exec (applyTheme cfg (Some "dark") None) (browser ∅ false))))
    !! "data-mode" = None.
Proof.
  intros cfg. split.
  - apply (X1_data_attribute_written cfg "dark" None (browser ∅ false) "data-Mode");
      [discriminate | by_evaluation | reflexivity | reflexivity].
  - apply (X1_data_attribute_written cfg "light" None
             (exec (applyTheme cfg (Some "dark") None) (browser ∅ false)) "data-Mode");
      [discriminate | by_evaluation | reflexivity | reflexivity].
Defined.

(** ** What [applyTheme] leaves alone *)

(** X2.  Whether it ends normally or throws, [applyTheme] changes the class
    list only when [class] is among the targets, changes no attribute other
    than the lower-cased names of the targets that start with [data-] (a
    target of another kind is ignored), and changes the color scheme only when
    the color-scheme flag is enabled; this for every theme, truthy or not. *)
Theorem X2_applyTheme_frame (cfg : Config) (theme : option string) (doc : option DocRef)
    (w : Browser) :
  let after := root_of doc (exec (applyTheme cfg theme doc) w) in
  ("class" ∉ targets cfg → classList after = classList (root_of doc w)) ∧
  (∀ k, (∀ a, a ∈ targets cfg → String.prefix "data-" a = true → ascii_lowercase a ≠ k) →
        attributes after !! k = attributes (root_of doc w) !! k) ∧
  (enableColorScheme cfg = false →
     style_colorScheme after = style_colorScheme (root_of doc w)).
Proof.
  intros after. unfold after. rewrite applyTheme_exec_root.
  destruct (nonempty theme) as [t|]; [|done].
  split; [|split].
  - intros Hc. rewrite applyTheme_root_classList, decide_False; [done|].
    by intros ?%executed_subset.
  - intros k Hk. rewrite applyTheme_root_attributes, decide_False; [done|].
    intros (a & Ha%executed_subset & Hp & Hlow & _)%Exists_exists.
    by apply (Hk a).
  - intros Hcs. rewrite applyTheme_root_style, Hcs. by destruct (apply_error _ _ _).
Qed.

Lemma X2_applyTheme_frame_witness :
  let cfg := define_vars
    (mkProps None None None None (Some false) None None
       (Some (OneAttribute "theme")) None None) in
  let w := exec (applyTheme (define_vars no_props) (Some "dark") None) (browser ∅ false) in
  root (exec (applyTheme cfg (Some "light") None) w) = root w.
Proof.
  intros cfg w.
  destruct (X2_applyTheme_frame cfg (Some "light") None w) as (Hc & Ha & Hs).
  apply Element_eq.
  - apply Hc. by_evaluation.
  - apply map_eq. intros k. apply Ha. intros a Hin Hp.
    apply list_elem_of_singleton in Hin as ->. discriminate Hp.
  - apply Hs. reflexivity.
Defined.

(** ** The class list *)

Lemma elem_of_without_tokens tokens l c :
  c ∈ without_tokens tokens l ↔ (c ∉ tokens) ∧ (c ∈ l).
Proof. unfold without_tokens. apply (list_elem_of_filter (λ c, c ∉ tokens)). Qed.

Lemma elem_of_with_token n l c : c ∈ with_token n l ↔ c = n ∨ c ∈ l.
Proof.
  unfold with_token. destruct (decide (n ∈ l)) as [Hin|Hout].
  - split; [by right|]. by intros [->|?].
  - rewrite elem_of_app, list_elem_of_singleton. tauto.
Qed.

(** X3.  When [class] is among the targets and [applyTheme] ends normally on
    a truthy theme whose resolved theme has a class value [n], then the class
    list holds [n] afterwards, holds no other token of [attrs] (the theme
    names, or the keys of the value map), and holds a token outside [attrs]
    exactly when it held it before; when the resolved theme has no class
    value, the tokens of [attrs] are removed and nothing is added. *)
Theorem X3_class_list_after_apply (cfg : Config) (t : string) (doc : option DocRef)
    (w : Browser) :
  t ≠ "" →
  "class" ∈ targets cfg →
  (applyTheme cfg (Some t) doc w).1 = Normal tt →
  let name := truthy_text (name_for cfg (engine w) (resolved_for cfg w t)) in
  let before := classList (root_of doc w) in
  let after := classList (root_of doc (exec (applyTheme cfg (Some t) doc) w)) in
  (∀ n, name = Some n →
        n ∈ after ∧
        (∀ c, c ∈ attrs cfg → c ≠ n → c ∉ after) ∧
        (∀ c, c ∉ attrs cfg → c ≠ n → (c ∈ after ↔ c ∈ before))) ∧
  (name = None → ∀ c, c ∈ after ↔ (c ∉ attrs cfg) ∧ (c ∈ before)).
Proof.
  intros Ht Hc Hn name before after.
  rewrite applyTheme_completion in Hn by done. apply completion_of_Normal in Hn.
  pose proof (first_error_None_all _ _ "class" Hn Hc) as Hok.
  unfold attr_error in Hok. rewrite decide_True in Hok by done.
  assert (after = class_update cfg (name_for cfg (engine w) (resolved_for cfg w t)) before)
    as ->.
  { unfold after, before. rewrite applyTheme_exec_root, nonempty_Some_id by done.
    rewrite applyTheme_root_classList, decide_True; [done|].
    by rewrite apply_error_None_executed. }
  unfold class_update, name. destruct (tokens_error (attrs cfg)); [done|].
  split.
  - intros n Hname. rewrite Hname in Hok |- *. rewrite Hok. split; [|split].
    + apply elem_of_with_token. by left.
    + intros c Hin Hne. rewrite elem_of_with_token, elem_of_without_tokens. tauto.
    + intros c Hout Hne. rewrite elem_of_with_token, elem_of_without_tokens. tauto.
  - intros ->. intros c. apply elem_of_without_tokens.
Qed.

Lemma X3_class_list_witness :
  let cfg := define_vars
    (mkProps (Some ["light"; "dark"; "sepia"]) None None None None None None
       (Some (OneAttribute "class")) None None) in
  let w := with_root CurrentDocument (λ _, mkElement ["no-js"; "sepia"] ∅ None)
             (browser ∅ false) in
  let after := classList (root (exec (applyTheme cfg (Some "dark") None) w)) in
  ("dark" ∈ after) ∧ ("sepia" ∉ after) ∧ ("no-js" ∈ after).
Proof.
  intros cfg w after.
  destruct (proj1 (X3_class_list_after_apply cfg "dark" None w
                     ltac:(discriminate) ltac:(by_evaluation) eq_refl) "dark" eq_refl)
    as (Hin & Hothers & Hkept).
  split; [exact Hin|]. split.
  - apply Hothers; [by_evaluation | discriminate].
  - apply Hkept; [by_evaluation | discriminate | by_evaluation].
Defined.

(** ** Applying one theme after another *)

Lemma class_update_after cfg name1 name2 l :
  (∀ n, truthy_text name1 = Some n → n ∈ attrs cfg) →
  class_update cfg name2 (class_update cfg name1 l) = class_update cfg name2 l.
Proof.
  intros Hn. unfold class_update. destruct (tokens_error (attrs cfg)); [done|].
  assert (without_tokens (attrs cfg)
            match truthy_text name1 with
            | Some n =>
                match token_error n with
                | Some _ => without_tokens (attrs cfg) l
                | None => with_token n (without_tokens (attrs cfg) l)
                end
            | None => without_tokens (attrs cfg) l
            end = without_tokens (attrs cfg) l) as ->; [|done].
  destruct (truthy_text name1) as [n|]; [|apply without_tokens_idemp].
  destruct (token_error n); [apply without_tokens_idemp|].
  specialize (Hn n eq_refl). unfold with_token.
  destruct (decide (n ∈ without_tokens (attrs cfg) l)) as [Hin|Hout].
  - apply without_tokens_idemp.
  - rewrite without_tokens_with_token by done. by rewrite decide_True.
Qed.

Lemma applyTheme_root_after eng cfg r1 r2 e :
  apply_error eng cfg r2 = None →
  (∀ n, truthy_text (name_for cfg eng r1) = Some n → n ∈ attrs cfg) →
  applyTheme_root eng cfg r2 (applyTheme_root eng cfg r1 e) = applyTheme_root eng cfg r2 e.
Proof.
  intros Hok Hn. apply Element_eq.
  - rewrite !applyTheme_root_classList, apply_error_None_executed by done.
    destruct (decide ("class" ∈ targets cfg)) as [Hc|Hc].
    + case_decide; [by apply class_update_after|done].
    + rewrite decide_False; [done|]. by intros ?%executed_subset.
  - apply map_eq. intros k.
    rewrite !applyTheme_root_attributes, apply_error_None_executed by done.
    case_decide as H2; [done|]. rewrite decide_False; [done|].
    intros (a & Ha%executed_subset & Hp & Hlow & _)%Exists_exists.
    apply H2, Exists_exists. exists a. split; [done|].
    split; [done|]. split; [done|].
    pose proof (first_error_None_all _ _ a Hok Ha) as Ha2.
    unfold attr_error in Ha2. rewrite decide_False in Ha2 by by apply data_prefix_not_class.
    unfold is_data_attribute in Hp. rewrite Hp in Ha2.
    destruct (truthy_text (name_for cfg eng r2)); [|by left]. right.
    by destruct (valid_attribute_name eng a).
  - rewrite !applyTheme_root_style, Hok.
    destruct (enableColorScheme cfg); [done|]. by destruct (apply_error eng cfg r1).
Qed.

(** X4.  The later theme wins: when [applyTheme] ends normally on the truthy
    theme [t2], applying [t2] after the truthy theme [t1], whose application
    may have thrown, gives the same root element as applying [t2] alone,
    provided the class value of [t1], if any, is one of the tokens of [attrs]
    that the next call removes (it is whenever there is no value map and the
    resolved [t1] is in [themes]). *)
Theorem X4_later_theme_wins (cfg : Config) (t1 t2 : string) (doc : option DocRef)
    (w : Browser) :
  t1 ≠ "" → t2 ≠ "" →
  (applyTheme cfg (Some t2) doc w).1 = Normal tt →
  (∀ n, truthy_text (name_for cfg (engine w) (resolved_for cfg w t1)) = Some n →
        n ∈ attrs cfg) →
  root_of doc (exec (applyTheme cfg (Some t2) doc) (exec (applyTheme cfg (Some t1) doc) w)) =
    root_of doc (exec (applyTheme cfg (Some t2) doc) w).
Proof.
  intros Ht1 Ht2 Hok Hn.
  rewrite applyTheme_completion in Hok by done. apply completion_of_Normal in Hok.
  destruct (applyTheme_exec cfg (Some t1) doc w) as (_ & Hp & He & _).
  rewrite !applyTheme_exec_root, !nonempty_Some_id by done.
  rewrite He, (resolved_for_ext cfg _ w t2) by done.
  by apply applyTheme_root_after.
Qed.

Lemma X4_later_theme_witness :
  let cfg := define_vars
    (mkProps None None None None None None None
       (Some (AttributeArray ["class"; "data-theme"])) None None) in
  root (exec (applyTheme cfg (Some "light") None)
          (exec (applyTheme cfg (Some "dark") None) (browser ∅ false))) =
    root (exec (applyTheme cfg (Some "light") None) (browser ∅ false)).
Proof.
  intros cfg.
  apply (X4_later_theme_wins cfg "dark" "light" None (browser ∅ false));
    [discriminate | discriminate | reflexivity |].
  intros n Hn. vm_compute in Hn. injection Hn as <-. by_evaluation.
Defined.

(** X5.  [applyTheme] is idempotent on the root element it works on: for
    every theme (truthy or not) and either document, a second call with the
    same theme leaves the class list, the attributes and the color scheme as
    the first call left them. *)
Theorem X5_applyTheme_idempotent (cfg : Config) (theme : option string)
    (doc : option DocRef) (w : Browser) :
  root_of doc (exec (applyTheme cfg theme doc) (exec (applyTheme cfg theme doc) w)) =
    root_of doc (exec (applyTheme cfg theme doc) w).
Proof.
  destruct (applyTheme_exec cfg theme doc w) as (_ & Hp & He & _).
  rewrite !applyTheme_exec_root. destruct (nonempty theme) as [t|] eqn:E; [|done].
  rewrite He, (resolved_for_ext cfg _ w t) by done.
  apply applyTheme_root_idemp.
Qed.

(** ** Handlers that only read the storage *)

(** X6.  The page load and the handlers of media-query changes, storage
    events and document swaps never write to the storage, whether they end
    normally or throw.  A refused access to the storage never makes them
    throw: [getResolveTheme] always returns, and [refreshTheme] and
    [handleBeforeSwap] are [applyTheme] on the theme that it returns. *)
Theorem X6_readers_keep_storage (cfg : Config) (key newValue : option string)
    (w : Browser) :
  localStorage (exec (refreshTheme cfg) w) = localStorage w ∧
  localStorage (exec (handleStorage cfg key newValue) w) = localStorage w ∧
  localStorage (exec (handleBeforeSwap cfg) w) = localStorage w ∧
  ∃ t, getResolveTheme cfg w = (Normal t, w) ∧
       refreshTheme cfg w = applyTheme cfg (Some t) None w ∧
       handleBeforeSwap cfg w = applyTheme cfg (Some t) (Some IncomingDocument) w.
Proof.
  split; [|split; [|split]].
  - unfold exec. rewrite refreshTheme_run. apply applyTheme_exec.
  - unfold exec, handleStorage. case_decide; [done|]. apply applyTheme_exec.
  - unfold exec. rewrite handleBeforeSwap_run. apply applyTheme_exec.
  - exists (resolved_theme cfg w).
    split; [apply getResolveTheme_run|]. split; [apply refreshTheme_run|].
    apply handleBeforeSwap_run.
Qed.

(** ** Saving and resolving *)

(** X7.  What [setTheme] saves is what the next resolution reads: after
    [set-theme] with a truthy theme [x] whose write succeeded,
    [getResolveTheme] returns [x], or the media-query scheme when [x] is
    [system]; after a write that threw, it returns what it returned before. *)
Theorem X7_setTheme_then_resolve (cfg : Config) (x : string) (w : Browser) :
  x ≠ "" →
  let w1 := exec (handleSetTheme cfg (Some x)) w in
  (write_fails (storageKey cfg) x w = false →
     getResolveTheme cfg w1 =
       (Normal (if decide (x = "system")
                then (if prefersDark_matches w then "dark" else "light") else x), w1)) ∧
  (write_fails (storageKey cfg) x w = true →
     (getResolveTheme cfg w1).1 = (getResolveTheme cfg w).1).
Proof.
  intros Hx w1.
  assert (effective_theme cfg (Some x) w = x) as Heff.
  { unfold effective_theme. by rewrite nonempty_Some_id. }
  pose proof (handleSetTheme_localStorage cfg (Some x) w) as Hls.
  pose proof (handleSetTheme_prefersDark cfg (Some x) w) as Hp.
  rewrite Heff in Hls. fold w1 in Hls, Hp.
  rewrite !getResolveTheme_run. split; intros Hf.
  - f_equal. f_equal. unfold resolved_theme, systemTheme.
    rewrite (persisted_ext _ _ _ Hls), persisted_saved, Hp by done.
    unfold js_or_str. by rewrite nonempty_Some_id.
  - simpl. f_equal. apply resolved_theme_ext; [|done].
    rewrite Hls. unfold saved. by rewrite Hf.
Qed.

Lemma X7_setTheme_then_resolve_witness :
  let cfg := define_vars no_props in
  (getResolveTheme cfg (exec (handleSetTheme cfg (Some "sepia")) (browser ∅ true))).1
    = Normal "sepia" ∧
  (getResolveTheme cfg (exec (handleSetTheme cfg (Some "sepia")) (full_browser ∅ true))).1
    = Normal "dark".
Proof.
  intros cfg. split.
  - rewrite (proj1 (X7_setTheme_then_resolve cfg "sepia" (browser ∅ true)
                      ltac:(discriminate)) eq_refl).
    reflexivity.
  - rewrite (proj2 (X7_setTheme_then_resolve cfg "sepia" (full_browser ∅ true)
                      ltac:(discriminate)) eq_refl).
    reflexivity.
Defined.

(** X8.  A reload reproduces the theme that was set: after [set-theme] with
    a truthy theme [x] whose write succeeded, the page load leaves the root
    element as [set-theme] left it, provided [x] is not [system] or system
    detection is enabled. *)
Theorem X8_reload_after_setTheme (cfg : Config) (x : string) (w : Browser) :
  x ≠ "" →
  write_fails (storageKey cfg) x w = false →
  x ≠ "system" ∨ enableSystem cfg = true →
  let w1 := exec (handleSetTheme cfg (Some x)) w in
  root (exec (refreshTheme cfg) w1) = root w1.
Proof.
  intros Hx Hf Hsys w1.
  destruct (X7_setTheme_then_resolve cfg x w Hx) as [Hres _].
  specialize (Hres Hf). fold w1 in Hres. rewrite getResolveTheme_run in Hres.
  injection Hres as Hres.
  assert (effective_theme cfg (Some x) w = x) as Heff.
  { unfold effective_theme. by rewrite nonempty_Some_id. }
  pose proof (handleSetTheme_root cfg (Some x) w) as Hroot.
  pose proof (handleSetTheme_prefersDark cfg (Some x) w) as Hp.
  pose proof (handleSetTheme_engine cfg (Some x) w) as He.
  rewrite Heff, nonempty_Some_id in Hroot by done. fold w1 in Hroot, Hp, He.
  unfold exec at 1. rewrite refreshTheme_run.
  change (root (applyTheme cfg (Some (resolved_theme cfg w1)) None w1).2)
    with (root_of None (exec (applyTheme cfg (Some (resolved_theme cfg w1)) None) w1)).
  rewrite applyTheme_exec_root. rewrite Hres.
  set (t' := if decide (x = "system")
             then if prefersDark_matches w then "dark" else "light" else x).
  assert (t' ≠ "") as Ht'.
  { unfold t'. case_decide; [by destruct (prefersDark_matches w)|done]. }
  rewrite nonempty_Some_id by done.
  assert (resolved_for cfg w1 t' = resolved_for cfg w x) as ->.
  { unfold t', resolved_for, systemTheme. rewrite Hp.
    destruct (decide (x = "system")) as [->|Hns].
    - destruct Hsys as [? | ->]; [done|].
      by destruct (prefersDark_matches w).
    - by rewrite decide_False. }
  rewrite root_of_None, He, Hroot.
  apply applyTheme_root_idemp.
Qed.

Lemma X8_reload_witness :
  let cfg := define_vars no_props in
  let w1 := exec (handleSetTheme cfg (Some "system")) (browser ∅ true) in
  root (exec (refreshTheme cfg) w1) = root w1.
Proof.
  intros cfg.
  apply (X8_reload_after_setTheme cfg "system" (browser ∅ true));
    [discriminate | reflexivity | right; reflexivity].
Defined.

(** ** Suppression of transitions *)

Lemma filter_all {A} (P : A → Prop) `{!∀ x, Decision (P x)} (l : list A) :
  (∀ x, x ∈ l → P x) → filter P l = l.
Proof.
  induction l as [|a l IH]; intros Hall; [done|].
  rewrite filter_cons, decide_True by (apply Hall; left).
  f_equal. apply IH. intros x Hx. apply Hall. by right.
Qed.

(** X9.  Without [disableTransitionOnChange], [applyTheme] leaves the head
    and the pending timeouts as they are.  With it, a truthy theme appends one
    style element (carrying the nonce when that is non-empty) to the head of
    the current document, whichever document is themed.  When [applyTheme]
    ends normally, the removal of that element is scheduled after one
    millisecond, and once the timeout has run the head is as before; when a
    call on the class list or the attributes throws, no timeout is scheduled
    and the style element stays.  The head of the incoming document is never
    changed. *)
Theorem X9_transition_style (cfg : Config) (t : string) (doc : option DocRef)
    (w : Browser) :
  t ≠ "" →
  let w' := exec (applyTheme cfg (Some t) doc) w in
  let css := mkStyleNode (next_node_id w) (nonempty (nonce cfg)) transition_css in
  (disableTransitionOnChange cfg = false →
     headChildren (document w') = headChildren (document w) ∧
     timeouts w' = timeouts w) ∧
  (disableTransitionOnChange cfg = true →
     headChildren (document w') = headChildren (document w) ++ [css] ∧
     ((applyTheme cfg (Some t) doc w).1 = Normal tt →
      timeouts w' = timeouts w ++ [mkTimer 1 (node_id css)] ∧
      (timeouts w = [] →
       (∀ n, n ∈ headChildren (document w) → node_id n < next_node_id w) →
       headChildren (document (run_timeouts w')) = headChildren (document w))) ∧
     (∀ x, (applyTheme cfg (Some t) doc w).1 = Throw x → timeouts w' = timeouts w)) ∧
  headChildren (newDocument w') = headChildren (newDocument w).
Proof.
  intros Ht w' css. unfold w', exec. rewrite applyTheme_state_run by done.
  cbn [fst snd]. unfold applyTheme_state.
  set (error := apply_error (engine w) cfg (resolved_for cfg w t)).
  set (d := default CurrentDocument doc).
  split; [|split].
  - intros ->. by destruct d.
  - intros ->. split; [|split].
    + by destruct error, d.
    + intros ->%completion_of_Normal.
      split; [by destruct d|].
      intros Hno Hfresh. unfold run_timeouts.
      assert (timeouts
                (timer_added (next_node_id w)
                   (with_root d (applyTheme_root (engine w) cfg (resolved_for cfg w t))
                      (style_added (nonce cfg) w))) = [mkTimer 1 (next_node_id w)]) as ->.
      { destruct d; simpl; by rewrite Hno. }
      destruct d; simpl;
        rewrite filter_app, filter_cons, filter_nil;
        rewrite decide_False by (by intros H; apply H);
        rewrite app_nil_r;
        apply filter_all; intros n Hn; specialize (Hfresh n Hn); lia.
    + intros x ->%completion_of_Throw. by destruct d.
  - by destruct (disableTransitionOnChange cfg), error, d.
Qed.

Lemma X9_transition_style_witness :
  let cfg := define_vars
    (mkProps None None None (Some true) None None None None None (Some "r4nd0m")) in
  let w' := exec (handleBeforeSwap cfg) (browser ∅ true) in
  headChildren (document w') = [mkStyleNode 0 (Some "r4nd0m") transition_css] ∧
  headChildren (newDocument w') = [] ∧
  headChildren (document (run_timeouts w')) = [].
Proof.
  intros cfg w'.
  destruct (X9_transition_style cfg "dark" (Some IncomingDocument) (browser ∅ true)
              ltac:(discriminate)) as (_ & Hon & Hincoming).
  destruct (Hon eq_refl) as (Hhead & Hnormal & _).
  destruct (Hnormal eq_refl) as [_ Hgone].
  split; [exact Hhead|]. split; [exact Hincoming|].
  apply Hgone; [reflexivity|]. intros n Hn. by apply not_elem_of_nil in Hn.
Defined.

(** ** Document swaps *)

Lemma applyTheme_state_current_root cfg t w :
  root (applyTheme_state cfg t (Some IncomingDocument) w) = root w.
Proof.
  unfold applyTheme_state.
  by destruct (disableTransitionOnChange cfg),
       (apply_error (engine w) cfg (resolved_for cfg w t)).
Qed.

(** X10.  On [astro:before-swap] the root element of the incoming document
    becomes what a page load in that document would make it, and the root
    element of the current document stays as it is. *)
Theorem X10_before_swap (cfg : Config) (w : Browser) :
  let w' := exec (handleBeforeSwap cfg) w in
  documentElement (newDocument w') = root (exec (refreshTheme cfg) (navigated w)) ∧
  root w' = root w.
Proof.
  intros w'. unfold w', exec. rewrite handleBeforeSwap_run, refreshTheme_run.
  assert (resolved_theme cfg (navigated w) = resolved_theme cfg w) as ->
    by by apply resolved_theme_ext.
  set (t := resolved_theme cfg w). split.
  - change (documentElement (newDocument (applyTheme cfg (Some t) (Some IncomingDocument) w).2))
      with (root_of (Some IncomingDocument)
              (exec (applyTheme cfg (Some t) (Some IncomingDocument)) w)).
    rewrite <- root_of_None. fold (exec (applyTheme cfg (Some t) None) (navigated w)).
    by rewrite !applyTheme_exec_root.
  - destruct (decide (t = "")) as [->|Ht]; [by rewrite applyTheme_falsy|].
    rewrite applyTheme_state_run by done. apply applyTheme_state_current_root.
Qed.

(** ** Changes of the media query *)

(** X11.  When the theme read from the storage (or the default theme, when
    nothing usable is stored) is not [system], the page does not follow the
    media query: [refreshTheme] gives the same root element whatever the media
    query reports. *)
Theorem X11_media_query_ignored (cfg : Config) (t : string) (b : bool) (w : Browser) :
  getTheme (storageKey cfg) (defaultTheme cfg) w = (Normal t, w) →
  t ≠ "system" →
  root (exec (refreshTheme cfg) (with_prefersDark b w)) = root (exec (refreshTheme cfg) w).
Proof.
  rewrite getTheme_run. intros [= Ht] Hns.
  assert (∀ w0, persisted (storageKey cfg) w0 = persisted (storageKey cfg) w →
                root w0 = root w → engine w0 = engine w →
                root (exec (refreshTheme cfg) w0) =
                  match nonempty (Some t) with
                  | Some t' => applyTheme_root (engine w) cfg t' (root w)
                  | None => root w
                  end) as Hgen.
  { intros w0 Hp Hr He. unfold exec. rewrite refreshTheme_run.
    assert (resolved_theme cfg w0 = t) as ->.
    { unfold resolved_theme. rewrite Hp, Ht. by rewrite decide_False. }
    change (root (applyTheme cfg (Some t) None w0).2)
      with (root_of None (exec (applyTheme cfg (Some t) None) w0)).
    rewrite applyTheme_exec_root. destruct (nonempty (Some t)) as [t'|] eqn:E; [|done].
    apply nonempty_Some in E as [[= <-] _].
    unfold resolved_for. rewrite decide_False by done.
    by rewrite root_of_None, Hr, He. }
  by rewrite !Hgen.
Qed.

Lemma X11_media_query_witness :
  let cfg := define_vars no_props in
  let w := browser {[ "theme" := "light" ]} false in
  root (exec (refreshTheme cfg) (with_prefersDark true w)) = root (exec (refreshTheme cfg) w).
Proof.
  intros cfg w.
  apply (X11_media_query_ignored cfg "light" true w); [reflexivity | discriminate].
Defined.

(** ** The storage entries *)

(** X12.  [set-theme] writes under the storage key only: for every detail,
    every other entry of the storage is after the handler what it was
    before. *)
Theorem X12_other_entries_kept (cfg : Config) (detail : option string) (w : Browser)
    (k : string) :
  k ≠ storageKey cfg →
  items (localStorage (exec (handleSetTheme cfg detail) w)) !! k =
    items (localStorage w) !! k.
Proof.
  intros Hk. rewrite handleSetTheme_localStorage. unfold saved.
  destruct (write_fails _ _ w); [done|]. simpl. by apply lookup_insert_ne.
Qed.

Lemma X12_other_entries_witness :
  items (localStorage (exec (handleSetTheme (define_vars no_props) (Some "dark"))
                         (browser {[ "lang" := "fr" ]} false))) !! "lang" = Some "fr".
Proof.
  rewrite (X12_other_entries_kept (define_vars no_props) (Some "dark")
             (browser {[ "lang" := "fr" ]} false) "lang" ltac:(discriminate)).
  reflexivity.
Defined.

(** ** Defaults of the props *)

(** X13.  With the [defaultTheme] prop omitted and nothing stored under the
    storage key (or a storage that cannot be read), the resolved theme is the
    media-query scheme when [enableSystem] is true or omitted, and [light],
    whatever the media query, when [enableSystem] is false. *)
Theorem X13_resolution_by_default (p : Props) (w : Browser) :
  p_defaultTheme p = None →
  denied (localStorage w) = true ∨
  items (localStorage w) !! default "theme" (p_storageKey p) = None →
  getResolveTheme (define_vars p) w =
    (Normal (match p_enableSystem p with
             | Some false => "light"
             | _ => if prefersDark_matches w then "dark" else "light"
             end), w).
Proof.
  intros Hd Hs. rewrite getResolveTheme_run. f_equal. f_equal.
  unfold resolved_theme, persisted, systemTheme, define_vars. simpl. rewrite Hd. simpl.
  assert ((if denied (localStorage w) then None
           else items (localStorage w) !! default "theme" (p_storageKey p)) = None) as ->.
  { destruct Hs as [-> | ->]; [done|]. by destruct (denied _). }
  by destruct (p_enableSystem p) as [[]|].
Qed.

Lemma X13_resolution_by_default_witness :
  getResolveTheme (define_vars no_system_props) (private_browser {[ "theme" := "dark" ]} true)
    = (Normal "light", private_browser {[ "theme" := "dark" ]} true) ∧
  getResolveTheme (define_vars no_props) (browser ∅ true)
    = (Normal "dark", browser ∅ true).
Proof.
  split.
  - apply (X13_resolution_by_default no_system_props
             (private_browser {[ "theme" := "dark" ]} true)); [reflexivity|].
    left. reflexivity.
  - apply (X13_resolution_by_default no_props (browser ∅ true)); [reflexivity|].
    right. reflexivity.
Defined.

(** ** [set-theme] without a theme *)

(** X14.  [set-theme] with a falsy detail does not clear the stored
    setting: it pins the theme resolved at that moment.  When the write
    succeeds, every later resolution returns that theme, whatever the media
    query has become since. *)
Theorem X14_setTheme_without_theme_pins (cfg : Config) (v : option string) (t : string)
    (b : bool) (w : Browser) :
  v = None ∨ v = Some "" →
  getResolveTheme cfg w = (Normal t, w) →
  write_fails (storageKey cfg) t w = false →
  let w1 := exec (handleSetTheme cfg v) w in
  items (localStorage w1) !! storageKey cfg = Some t ∧
  (getResolveTheme cfg (with_prefersDark b w1)).1 = Normal t.
Proof.
  intros Hv Hres Hf w1. apply nonempty_None in Hv.
  rewrite getResolveTheme_run in Hres. injection Hres as Hres.
  pose proof (handleSetTheme_localStorage cfg v w) as Hls. fold w1 in Hls.
  unfold effective_theme in Hls. rewrite Hv, Hres in Hls.
  assert (persisted (storageKey cfg) w1 = Some t) as Hp.
  { rewrite (persisted_ext _ _ _ Hls). by apply persisted_saved. }
  split.
  - unfold persisted in Hp. by destruct (denied (localStorage w1)).
  - rewrite getResolveTheme_run. simpl. f_equal. rewrite <- Hres.
    apply resolved_theme_pinned. by rewrite Hres.
Qed.

Lemma X14_setTheme_without_theme_witness :
  let cfg := define_vars no_props in
  let w1 := exec (handleSetTheme cfg None) (browser ∅ true) in
  items (localStorage w1) !! "theme" = Some "dark" ∧
  (getResolveTheme cfg (with_prefersDark false w1)).1 = Normal "dark".
Proof.
  intros cfg.
  apply (X14_setTheme_without_theme_pins cfg None "dark" false (browser ∅ true));
    [left; reflexivity | reflexivity | reflexivity].
Defined.

(** ** Storage events and [set-theme] *)

(** X15.  A storage event that carries the storage key and a truthy new
    value leaves the root element as [set-theme] with that value would leave
    it: the tab that hears of a change ends with the root element of the tab
    that made it. *)
Theorem X15_storage_event_mirrors_setTheme (cfg : Config) (x : string) (w : Browser) :
  x ≠ "" →
  root (exec (handleStorage cfg (Some (storageKey cfg)) (Some x)) w) =
    root (exec (handleSetTheme cfg (Some x)) w).
Proof.
  intros Hx.
  assert (effective_theme cfg (Some x) w = x) as Heff.
  { unfold effective_theme. by rewrite nonempty_Some_id. }
  rewrite handleSetTheme_root, Heff, nonempty_Some_id by done.
  unfold handleStorage. rewrite decide_False by (by intros H).
  unfold js_or_str. rewrite nonempty_Some_id by done.
  rewrite <- (root_of_None (exec (applyTheme cfg (Some x) None) w)).
  by rewrite applyTheme_exec_root, nonempty_Some_id.
Qed.

Lemma X15_storage_event_witness :
  let cfg := define_vars no_props in
  root (exec (handleStorage cfg (Some "theme") (Some "dark")) (browser ∅ false)) =
    root (exec (handleSetTheme cfg (Some "dark")) (browser ∅ false)).
Proof.
  intros cfg.
  apply (X15_storage_event_mirrors_setTheme cfg "dark" (browser ∅ false)).
  discriminate.
Defined.
